(** * A shallow embedding of [pomodoro.py]

    The terminal Pomodoro timer is embedded class by class: [Timer] for
    [PomodoroTimer], [Tasks] for [Task] and [TaskManager], [Stats] for
    [Statistics], [App] for [PomodoroApp].  Python's unbounded [int] is [Z];
    a reading of [time.time()] is passed in by the caller, and so are
    [date.today()] and [datetime.now()], as strings.  A raised exception is
    a [Raise] result.

    The timer is embedded twice.  [Timer64] has the clock of the code:
    readings are binary64 floats and every difference and sum is rounded
    as the machine rounds it.  What is said of elapsed time, of pausing
    and of skipping is proved there.  [Timer], which the application and
    the properties of the session cycle use, has rational readings and
    rounds nothing. *)

From Stdlib Require Import ZArith QArith Qround Floats Ascii String List Sorted Lia.
From stdpp Require Import base option list strings pretty gmap.

Set Default Proof Using "Type".
Set Warnings "-inexact-float".
Local Open Scope Z_scope.

(** ** Exceptions *)

Inductive Exn : Type :=
| TypeError
| ValueError
| IndexError
| OverflowError.

Inductive result (A : Type) : Type :=
| Ok (a : A)
| Raise (e : Exn).

Arguments Ok {A} a.
Arguments Raise {A} e.

#[global] Instance result_ret : MRet result := fun A a => Ok a.

#[global] Instance result_bind : MBind result := fun A B k r =>
  match r with
  | Ok a => k a
  | Raise e => Raise e
  end.

(** ** Module constants *)

Definition WORK_MINUTES : Z := 25.
Definition SHORT_BREAK_MINUTES : Z := 5.
Definition LONG_BREAK_MINUTES : Z := 15.
Definition POMODOROS_UNTIL_LONG_BREAK : Z := 4.

(** [int(x)] on a float: truncation toward zero. *)
Definition int_of_float (x : Q) : Z := Z.quot (Qnum x) (Z.pos (Qden x)).

(** ** [SoundPlayer]: the three bell kinds of [play_bell]. The thread that
    plays them is never joined; what remains of it here is the trace of
    the calls. *)

Inductive Bell : Type :=
| BellStart
| BellPause
| BellCompletion.

Definition play_start_sound : list Bell := [BellStart].
Definition play_pause_sound : list Bell := [BellPause].
Definition play_completion_sound : list Bell := [BellCompletion].

(** ** [PomodoroTimer], on a clock that rounds nothing *)

Module Timer.

Inductive TimerState : Type :=
| STOPPED
| RUNNING
| PAUSED.

Inductive SessionType : Type :=
| WORK
| SHORT_BREAK
| LONG_BREAK.

Definition TimerState_eqb (a b : TimerState) : bool :=
  match a, b with
  | STOPPED, STOPPED | RUNNING, RUNNING | PAUSED, PAUSED => true
  | _, _ => false
  end.

Definition SessionType_eqb (a b : SessionType) : bool :=
  match a, b with
  | WORK, WORK | SHORT_BREAK, SHORT_BREAK | LONG_BREAK, LONG_BREAK => true
  | _, _ => false
  end.

(** [start_time] is [None] until the first [start()]; [paused_time] is the
    integer [0] until the first [pause()]. *)
Record PomodoroTimer : Type := mkTimer {
  state : TimerState;
  session_type : SessionType;
  remaining_seconds : Z;
  total_seconds : Z;
  pomodoros_completed : Z;
  start_time : option Q;
  paused_time : Q
}.

Definition set_state (v : TimerState) (t : PomodoroTimer) : PomodoroTimer :=
  mkTimer v (session_type t) (remaining_seconds t) (total_seconds t)
          (pomodoros_completed t) (start_time t) (paused_time t).

Definition set_session_type (v : SessionType) (t : PomodoroTimer) : PomodoroTimer :=
  mkTimer (state t) v (remaining_seconds t) (total_seconds t)
          (pomodoros_completed t) (start_time t) (paused_time t).

Definition set_remaining_seconds (v : Z) (t : PomodoroTimer) : PomodoroTimer :=
  mkTimer (state t) (session_type t) v (total_seconds t)
          (pomodoros_completed t) (start_time t) (paused_time t).

Definition set_total_seconds (v : Z) (t : PomodoroTimer) : PomodoroTimer :=
  mkTimer (state t) (session_type t) (remaining_seconds t) v
          (pomodoros_completed t) (start_time t) (paused_time t).

Definition set_pomodoros_completed (v : Z) (t : PomodoroTimer) : PomodoroTimer :=
  mkTimer (state t) (session_type t) (remaining_seconds t) (total_seconds t)
          v (start_time t) (paused_time t).

Definition set_start_time (v : option Q) (t : PomodoroTimer) : PomodoroTimer :=
  mkTimer (state t) (session_type t) (remaining_seconds t) (total_seconds t)
          (pomodoros_completed t) v (paused_time t).

Definition set_paused_time (v : Q) (t : PomodoroTimer) : PomodoroTimer :=
  mkTimer (state t) (session_type t) (remaining_seconds t) (total_seconds t)
          (pomodoros_completed t) (start_time t) v.

(** [__init__] *)
Definition init : PomodoroTimer :=
  mkTimer STOPPED WORK (WORK_MINUTES * 60) (WORK_MINUTES * 60) 0 None 0%Q.

(** [start]: [now] is the reading of [time.time()] taken in the branch
    that runs. [self.start_time += pause_duration] on [None] raises. *)
Definition start (t : PomodoroTimer) (now : Q) : result (PomodoroTimer * list Bell) :=
  match state t with
  | STOPPED =>
      Ok (set_state RUNNING (set_start_time (Some now) t), play_start_sound)
  | PAUSED =>
      let pause_duration := (now - paused_time t)%Q in
      match start_time t with
      | Some s =>
          Ok (set_state RUNNING (set_start_time (Some (s + pause_duration)%Q) t),
              play_pause_sound)
      | None => Raise TypeError
      end
  | RUNNING => Ok (set_state RUNNING t, [])
  end.

(** [pause] *)
Definition pause (t : PomodoroTimer) (now : Q) : PomodoroTimer * list Bell :=
  match state t with
  | RUNNING => (set_paused_time now (set_state PAUSED t), play_pause_sound)
  | _ => (t, [])
  end.

(** [stop] *)
Definition stop (t : PomodoroTimer) : PomodoroTimer :=
  set_remaining_seconds (total_seconds t) (set_state STOPPED t).

(** [start_work] *)
Definition start_work (t : PomodoroTimer) : PomodoroTimer :=
  let t := set_session_type WORK t in
  let t := set_total_seconds (WORK_MINUTES * 60) t in
  let t := set_remaining_seconds (total_seconds t) t in
  set_state STOPPED t.

(** [start_break] *)
Definition start_break (t : PomodoroTimer) (break_type : SessionType) : PomodoroTimer :=
  let t := set_session_type break_type t in
  let t := if SessionType_eqb break_type LONG_BREAK
           then set_total_seconds (LONG_BREAK_MINUTES * 60) t
           else set_total_seconds (SHORT_BREAK_MINUTES * 60) t in
  let t := set_remaining_seconds (total_seconds t) t in
  set_state STOPPED t.

(** [complete_session] *)
Definition complete_session (t : PomodoroTimer) : PomodoroTimer :=
  if SessionType_eqb (session_type t) WORK then
    let t := set_pomodoros_completed (pomodoros_completed t + 1) t in
    if pomodoros_completed t mod POMODOROS_UNTIL_LONG_BREAK =? 0
    then start_break t LONG_BREAK
    else start_break t SHORT_BREAK
  else start_work t.

(** [skip] *)
Definition skip (t : PomodoroTimer) (now : Q) : PomodoroTimer :=
  match state t with
  | RUNNING =>
      set_remaining_seconds 0
        (set_start_time (Some (now - inject_Z (total_seconds t))%Q) t)
  | _ => complete_session t
  end.

(** [update]: the boolean is the returned completion flag.
    [time.time() - self.start_time] on [None] raises. *)
Definition update (t : PomodoroTimer) (now : Q) : result (PomodoroTimer * bool) :=
  if negb (TimerState_eqb (state t) RUNNING) then Ok (t, false)
  else
    match start_time t with
    | None => Raise TypeError
    | Some s =>
        let elapsed := (now - s)%Q in
        let t := set_remaining_seconds
                   (Z.max 0 (total_seconds t - int_of_float elapsed)) t in
        if remaining_seconds t =? 0
        then Ok (complete_session t, true)
        else Ok (t, false)
    end.

(** The calls that can be made on a timer, each with the clock it reads,
    and a run of them: the timer reached and how many of the calls
    returned the completion flag. *)
Inductive Call : Type :=
| CallStart (now : Q)
| CallPause (now : Q)
| CallStop
| CallSkip (now : Q)
| CallUpdate (now : Q).

Definition is_start (c : Call) : bool :=
  match c with
  | CallStart _ => true
  | _ => false
  end.

Definition call (t : PomodoroTimer) (c : Call) : result (PomodoroTimer * bool) :=
  match c with
  | CallStart now => '(t', _) ← start t now; Ok (t', false)
  | CallPause now => Ok ((pause t now).1, false)
  | CallStop => Ok (stop t, false)
  | CallSkip now => Ok (skip t now, false)
  | CallUpdate now => update t now
  end.

Fixpoint calls (t : PomodoroTimer) (cs : list Call) : result (PomodoroTimer * nat) :=
  match cs with
  | [] => Ok (t, 0%nat)
  | c :: rest =>
      '(t1, flag) ← call t c;
      '(t2, n) ← calls t1 rest;
      Ok (t2, if flag : bool then S n else n)
  end.

(** The duration table of the specification, in seconds. *)
Definition duration_table (s : SessionType) : Z :=
  match s with
  | WORK => 25 * 60
  | SHORT_BREAK => 5 * 60
  | LONG_BREAK => 15 * 60
  end.


End Timer.

(** ** [Task] and [TaskManager] *)

Module Tasks.

Record Task : Type := mkTask {
  id : Z;
  title : string;
  priority : string;
  estimated_pomodoros : Z;
  completed_pomodoros : Z;
  completed : bool;
  created_at : string
}.

(** [Task.__post_init__]: an empty [created_at] is replaced by
    [datetime.now().isoformat()], here [now_iso]. *)
Definition post_init (t : Task) (now_iso : string) : Task :=
  if String.eqb (created_at t) EmptyString
  then mkTask (id t) (title t) (priority t) (estimated_pomodoros t)
              (completed_pomodoros t) (completed t) now_iso
  else t.

Definition set_title (v : string) (t : Task) : Task :=
  mkTask (id t) v (priority t) (estimated_pomodoros t)
         (completed_pomodoros t) (completed t) (created_at t).

Definition set_priority (v : string) (t : Task) : Task :=
  mkTask (id t) (title t) v (estimated_pomodoros t)
         (completed_pomodoros t) (completed t) (created_at t).

Definition set_estimated_pomodoros (v : Z) (t : Task) : Task :=
  mkTask (id t) (title t) (priority t) v
         (completed_pomodoros t) (completed t) (created_at t).

Definition set_completed_pomodoros (v : Z) (t : Task) : Task :=
  mkTask (id t) (title t) (priority t) (estimated_pomodoros t)
         v (completed t) (created_at t).

Definition set_completed (v : bool) (t : Task) : Task :=
  mkTask (id t) (title t) (priority t) (estimated_pomodoros t)
         (completed_pomodoros t) v (created_at t).

(** What [save_tasks] dumps into [TASKS_FILE]. *)
Record TaskFile : Type := mkTaskFile {
  file_next_id : Z;
  file_active_task_id : option Z;
  file_tasks : list Task
}.

(** What can be found at [TASKS_FILE]: the dump of [save_tasks]; a file
    that [json.load] refuses; or an object whose list of tasks holds a
    record that [Task] refuses, with its next_id entry, if it has one,
    and its active_task_id entry. *)
Inductive FileContent : Type :=
| Dumped (f : TaskFile)
| NotJson
| BadRecord (next : option Z) (active : option Z).

(** The three attributes of the object, and the file at [TASKS_FILE]
    ([None]: the file does not exist). *)
Record TaskManager : Type := mkTaskManager {
  tasks : list Task;
  next_id : Z;
  active_task_id : option Z;
  TASKS_FILE : option FileContent
}.

(** [save_tasks] *)
Definition save_tasks (tm : TaskManager) : TaskManager :=
  mkTaskManager (tasks tm) (next_id tm) (active_task_id tm)
    (Some (Dumped (mkTaskFile (next_id tm) (active_task_id tm) (tasks tm)))).

(** [load_tasks]. With no file nothing is read. The three assignments of
    the [try] block run in order and the handler only prints: when
    [json.load] raises nothing is assigned; when building a task raises,
    [next_id] (1 if the entry is missing) and [active_task_id] are
    already assigned and the list is left as it was. Each task of a dump
    is built again from its record, which runs [__post_init__] at the
    clock [now_iso] of the load. *)
Definition load_tasks (tm : TaskManager) (now_iso : string) : TaskManager :=
  match TASKS_FILE tm with
  | None => tm
  | Some NotJson => tm
  | Some (BadRecord next active) =>
      mkTaskManager (tasks tm) (default 1 next) active (TASKS_FILE tm)
  | Some (Dumped f) =>
      mkTaskManager ((fun t => post_init t now_iso) <$> file_tasks f)
                    (file_next_id f) (file_active_task_id f) (TASKS_FILE tm)
  end.

(** [__init__], given what is found at [TASKS_FILE] and the clock at
    which it is loaded, or [None] when there is no file. *)
Definition init (found : option (FileContent * string)) : TaskManager :=
  match found with
  | None => mkTaskManager [] 1 None None
  | Some (file, now_iso) => load_tasks (mkTaskManager [] 1 None (Some file)) now_iso
  end.

(** [add_task]: the new task and the store after the call. *)
Definition add_task (tm : TaskManager) (title' priority' : string)
    (estimated_pomodoros' : Z) (now_iso : string) : Task * TaskManager :=
  let task :=
    post_init (mkTask (next_id tm) title' priority' estimated_pomodoros'
                      0 false EmptyString) now_iso in
  let tm := mkTaskManager (tasks tm ++ [task]) (next_id tm)
                          (active_task_id tm) (TASKS_FILE tm) in
  let tm := mkTaskManager (tasks tm) (next_id tm + 1)
                          (active_task_id tm) (TASKS_FILE tm) in
  (task, save_tasks tm).

(** The loop of [get_task] over a list: the first task with this id. *)
Fixpoint find_task (l : list Task) (task_id : Z) : option Task :=
  match l with
  | [] => None
  | task :: rest =>
      if id task =? task_id then Some task else find_task rest task_id
  end.

(** [get_task] *)
Definition get_task (tm : TaskManager) (task_id : Z) : option Task :=
  find_task (tasks tm) task_id.

(** [get_active_task]: [if self.active_task_id] is false on [None] and
    on [0]. *)
Definition get_active_task (tm : TaskManager) : option Task :=
  match active_task_id tm with
  | Some a => if a =? 0 then None else get_task tm a
  | None => None
  end.

(** [set_active_task] *)
Definition set_active_task (tm : TaskManager) (task_id : option Z) : TaskManager :=
  save_tasks (mkTaskManager (tasks tm) (next_id tm) task_id (TASKS_FILE tm)).

(** An attribute assignment on the object [get_task] returned: the list
    holds that same object, so its first task with this id changes in
    place. *)
Fixpoint mutate_task (l : list Task) (task_id : Z) (f : Task -> Task) : list Task :=
  match l with
  | [] => []
  | task :: rest =>
      if id task =? task_id then f task :: rest
      else task :: mutate_task rest task_id f
  end.

Definition set_tasks (l : list Task) (tm : TaskManager) : TaskManager :=
  mkTaskManager l (next_id tm) (active_task_id tm) (TASKS_FILE tm).

(** [complete_task] *)
Definition complete_task (tm : TaskManager) (task_id : Z) : TaskManager :=
  match get_task tm task_id with
  | Some _ =>
      save_tasks (set_tasks (mutate_task (tasks tm) task_id (set_completed true)) tm)
  | None => tm
  end.

(** [delete_task]: [None == task_id] is false. *)
Definition delete_task (tm : TaskManager) (task_id : Z) : TaskManager :=
  let l := List.filter (fun t => negb (id t =? task_id)) (tasks tm) in
  let active :=
    match active_task_id tm with
    | Some a => if a =? task_id then None else Some a
    | None => None
    end in
  save_tasks (mkTaskManager l (next_id tm) active (TASKS_FILE tm)).

(** The three conditional assignments of [edit_task]. *)
Definition apply_edit (title' priority' : option string) (estimated : option Z)
    (t : Task) : Task :=
  let t := match title' with Some v => set_title v t | None => t end in
  let t := match priority' with Some v => set_priority v t | None => t end in
  match estimated with Some v => set_estimated_pomodoros v t | None => t end.

(** [edit_task] *)
Definition edit_task (tm : TaskManager) (task_id : Z)
    (title' priority' : option string) (estimated : option Z) : TaskManager :=
  match get_task tm task_id with
  | Some _ =>
      save_tasks
        (set_tasks (mutate_task (tasks tm) task_id
                      (apply_edit title' priority' estimated)) tm)
  | None => tm
  end.

(** [increment_task_pomodoro] *)
Definition increment_task_pomodoro (tm : TaskManager) (task_id : Z) : TaskManager :=
  match get_task tm task_id with
  | Some _ =>
      save_tasks
        (set_tasks (mutate_task (tasks tm) task_id
                      (fun t => set_completed_pomodoros (completed_pomodoros t + 1) t))
                   tm)
  | None => tm
  end.

(** [priority_order.get(t.priority, 3)] *)
Definition priority_order (p : string) : Z :=
  if String.eqb p "High" then 0
  else if String.eqb p "Medium" then 1
  else if String.eqb p "Low" then 2
  else 3.

(** [list.sort(key=...)] is a stable sort on the keys; here by insertion,
    each element going in front of the first one whose key is not
    smaller. *)
Fixpoint insert_by_key {A : Type} (key : A -> Z) (x : A) (l : list A) : list A :=
  match l with
  | [] => [x]
  | y :: rest =>
      if key x <=? key y then x :: y :: rest
      else y :: insert_by_key key x rest
  end.

Fixpoint sort_by_key {A : Type} (key : A -> Z) (l : list A) : list A :=
  match l with
  | [] => []
  | x :: rest => insert_by_key key x (sort_by_key key rest)
  end.

(** [get_incomplete_tasks] *)
Definition get_incomplete_tasks (tm : TaskManager) (sort_by_priority : bool) : list Task :=
  let l := List.filter (fun t => negb (completed t)) (tasks tm) in
  if sort_by_priority
  then sort_by_key (fun t => priority_order (priority t)) l
  else l.

(** The operations of the store as commands, and the ids that the
    [add_task] calls of a run hand out. *)
Inductive Op : Type :=
| OpAdd (title' priority' : string) (estimated_pomodoros' : Z) (now_iso : string)
| OpSetActive (task_id : option Z)
| OpComplete (task_id : Z)
| OpDelete (task_id : Z)
| OpEdit (task_id : Z) (title' priority' : option string) (estimated : option Z)
| OpIncrement (task_id : Z).

Definition step (tm : TaskManager) (op : Op) : TaskManager * list Z :=
  match op with
  | OpAdd t p e n => let '(task, tm') := add_task tm t p e n in (tm', [id task])
  | OpSetActive i => (set_active_task tm i, [])
  | OpComplete i => (complete_task tm i, [])
  | OpDelete i => (delete_task tm i, [])
  | OpEdit i t p e => (edit_task tm i t p e, [])
  | OpIncrement i => (increment_task_pomodoro tm i, [])
  end.

Fixpoint run (tm : TaskManager) (ops : list Op) : TaskManager * list Z :=
  match ops with
  | [] => (tm, [])
  | op :: rest =>
      let '(tm1, ids1) := step tm op in
      let '(tm2, ids2) := run tm1 rest in
      (tm2, ids1 ++ ids2)
  end.

(** The invariant of the store: the active reference, when set, is the id
    of a task of the list. *)
Definition active_ok (tm : TaskManager) : Prop :=
  match active_task_id tm with
  | Some a => exists t, t ∈ tasks tm /\ id t = a
  | None => True
  end.

(** The order of the sorted list: priority ranks do not decrease. *)
Definition by_priority (a b : Task) : Prop :=
  priority_order (priority a) <= priority_order (priority b).

Definition is_add (op : Op) : bool :=
  match op with
  | OpAdd _ _ _ _ => true
  | _ => false
  end.

(** The ids of the store stay below the counter. *)
Definition ids_below (tm : TaskManager) : Prop :=
  forall t, t ∈ tasks tm -> id t < next_id tm.

(** What an operation must be given for the invariant to be kept: the id
    passed to [set_active_task], when there is one, is that of a task of
    the list. *)
Definition names_listed_task (tm : TaskManager) (op : Op) : Prop :=
  match op with
  | OpSetActive (Some i) => exists t, t ∈ tasks tm /\ id t = i
  | _ => True
  end.

End Tasks.

(** ** [Statistics] *)

Module Stats.

(** One day's entry: [{"total_pomodoros": n, "tasks": {title: count}}]. *)
Record DayStats : Type := mkDayStats {
  total_pomodoros : Z;
  tasks : gmap string Z
}.

Definition set_total_pomodoros (v : Z) (d : DayStats) : DayStats :=
  mkDayStats v (tasks d).

Definition set_tasks (v : gmap string Z) (d : DayStats) : DayStats :=
  mkDayStats (total_pomodoros d) v.

Definition zero_day : DayStats := mkDayStats 0 ∅.

(** The dictionary [self.stats], keyed by ISO date, and the file that
    [save_stats] writes. *)
Record Statistics : Type := mkStatistics {
  stats : gmap string DayStats;
  STATS_FILE : option (gmap string DayStats)
}.

(** [__init__] with no file on disk. *)
Definition init : Statistics := mkStatistics ∅ None.

(** [save_stats] *)
Definition save_stats (st : Statistics) : Statistics :=
  mkStatistics (stats st) (Some (stats st)).

(** [record_pomodoro]; [today] is [date.today().isoformat()]. *)
Definition record_pomodoro (st : Statistics) (today task_title : string) : Statistics :=
  let m := stats st in
  let m := match m !! today with
           | Some _ => m
           | None => <[today := zero_day]> m
           end in
  let m := alter (fun d => set_total_pomodoros (total_pomodoros d + 1) d) today m in
  let m := alter (fun d => match tasks d !! task_title with
                           | Some _ => d
                           | None => set_tasks (<[task_title := 0]> (tasks d)) d
                           end) today m in
  let m := alter (fun d => set_tasks (alter (fun c => c + 1) task_title (tasks d)) d)
                 today m in
  save_stats (mkStatistics m (STATS_FILE st)).

(** [get_today_stats] *)
Definition get_today_stats (st : Statistics) (today : string) : DayStats :=
  default zero_day (stats st !! today).

End Stats.

(** ** [PomodoroApp] *)

Module App.

(** The components the loop mutates, its two flags, and the bells rung
    so far (newest last). *)
Record PomodoroApp : Type := mkApp {
  timer : Timer.PomodoroTimer;
  task_manager : Tasks.TaskManager;
  stats : Stats.Statistics;
  running : bool;
  show_help : bool;
  bells : list Bell
}.

Definition set_timer (v : Timer.PomodoroTimer) (a : PomodoroApp) : PomodoroApp :=
  mkApp v (task_manager a) (stats a) (running a) (show_help a) (bells a).

Definition set_task_manager (v : Tasks.TaskManager) (a : PomodoroApp) : PomodoroApp :=
  mkApp (timer a) v (stats a) (running a) (show_help a) (bells a).

Definition set_stats (v : Stats.Statistics) (a : PomodoroApp) : PomodoroApp :=
  mkApp (timer a) (task_manager a) v (running a) (show_help a) (bells a).

Definition set_running (v : bool) (a : PomodoroApp) : PomodoroApp :=
  mkApp (timer a) (task_manager a) (stats a) v (show_help a) (bells a).

Definition set_show_help (v : bool) (a : PomodoroApp) : PomodoroApp :=
  mkApp (timer a) (task_manager a) (stats a) (running a) v (bells a).

Definition play_bell (b : list Bell) (a : PomodoroApp) : PomodoroApp :=
  mkApp (timer a) (task_manager a) (stats a) (running a) (show_help a) (bells a ++ b).

(** [__init__], given the task file found on disk and the clock at
    which it is loaded. *)
Definition init (found : option (Tasks.FileContent * string)) : PomodoroApp :=
  mkApp Timer.init (Tasks.init found) Stats.init true false [].

(** The four prompt dialogs read what the user types at the console; each
    is taken as a function of the application it is entered with. *)
Record Console : Type := mkConsole {
  add_task_interactive : PomodoroApp -> result PomodoroApp;
  edit_task_interactive : PomodoroApp -> result PomodoroApp;
  complete_task_interactive : PomodoroApp -> result PomodoroApp;
  delete_task_interactive : PomodoroApp -> result PomodoroApp
}.

(** [on_session_complete]; [today] is the date [record_pomodoro] reads. *)
Definition on_session_complete (a : PomodoroApp) (today : string) : PomodoroApp :=
  let a := play_bell play_completion_sound a in
  if Timer.SessionType_eqb (Timer.session_type (timer a)) Timer.WORK then
    match Tasks.get_active_task (task_manager a) with
    | Some active_task =>
        let a := set_task_manager
                   (Tasks.increment_task_pomodoro (task_manager a)
                      (Tasks.id active_task)) a in
        set_stats (Stats.record_pomodoro (stats a) today (Tasks.title active_task)) a
    | None =>
        set_stats (Stats.record_pomodoro (stats a) today "No task") a
    end
  else a.

(** [str.isdigit] on the one character read from the terminal. *)
Definition isdigit (key : ascii) : bool :=
  let n := N_of_ascii key in
  ((48 <=? n) && (n <=? 57) || (n =? 178) || (n =? 179) || (n =? 185))%N.

(** ['1' <= key <= '9'] *)
Definition in_1_9 (key : ascii) : bool :=
  let n := N_of_ascii key in ((49 <=? n) && (n <=? 57))%N.

(** [int(key)] on a decimal digit. *)
Definition int_of_key (key : ascii) : Z := Z.of_N (N_of_ascii key) - 48.

(** The character of the numeric key N. *)
Definition digit_key (N : Z) : ascii := ascii_of_N (Z.to_N (48 + N)).

(** [handle_input]; [now] is the clock reading of the timer call made, if
    any. In the last branch [idx] is not negative. *)
Definition handle_input (ui : Console) (a : PomodoroApp) (key : ascii) (now : Q)
    : result PomodoroApp :=
  if show_help a then Ok (set_show_help false a)
  else if Ascii.eqb key "q" then Ok (set_running false a)
  else if Ascii.eqb key "?" then Ok (set_show_help true a)
  else if Ascii.eqb key "s" then
    if Timer.TimerState_eqb (Timer.state (timer a)) Timer.RUNNING then
      let '(t, b) := Timer.pause (timer a) now in
      Ok (play_bell b (set_timer t a))
    else
      '(t, b) ← Timer.start (timer a) now;
      Ok (play_bell b (set_timer t a))
  else if Ascii.eqb key "k" then Ok (set_timer (Timer.skip (timer a) now) a)
  else if Ascii.eqb key "a" then add_task_interactive ui a
  else if Ascii.eqb key "e" then edit_task_interactive ui a
  else if Ascii.eqb key "c" then complete_task_interactive ui a
  else if Ascii.eqb key "d" then delete_task_interactive ui a
  else if isdigit key && in_1_9 key then
    let tasks := Tasks.get_incomplete_tasks (task_manager a) true in
    let idx := int_of_key key - 1 in
    if idx <? Z.of_nat (length tasks) then
      match tasks !! Z.to_nat idx with
      | Some task =>
          Ok (set_task_manager
                (Tasks.set_active_task (task_manager a) (Some (Tasks.id task))) a)
      | None => Raise IndexError
      end
    else Ok a
  else Ok a.

(** The rows of [render_tasks]: the first ten tasks of the sorted list,
    numbered from 1. *)
Definition render_tasks (a : PomodoroApp) : list (Z * Tasks.Task) :=
  let tasks := Tasks.get_incomplete_tasks (task_manager a) true in
  imap (fun i task => (Z.of_nat (S i), task)) (take 10 tasks).

(** What one turn of the loop of [run] reads from outside: the clock at
    [update], the date, the key waiting on the terminal, the clock at the
    timer call the key leads to. *)
Record Tick : Type := mkTick {
  at_update : Q;
  today : string;
  key : option ascii;
  at_key : Q
}.

(** The body of the loop of [run]. *)
Definition tick (ui : Console) (a : PomodoroApp) (i : Tick) : result PomodoroApp :=
  '(t, completed) ← Timer.update (timer a) (at_update i);
  let a := set_timer t a in
  let a := if completed : bool then on_session_complete a (today i) else a in
  match key i with
  | Some k => handle_input ui a k (at_key i)
  | None => Ok a
  end.

(** [run], over the readings of finitely many turns. *)
Fixpoint run (ui : Console) (a : PomodoroApp) (turns : list Tick) : result PomodoroApp :=
  match turns with
  | [] => Ok a
  | i :: rest =>
      if running a then a' ← tick ui a i; run ui a' rest
      else Ok a
  end.

End App.

(** ** Runs of timer calls *)

Module TimerRuns.

Import Timer.

(** What every timer reached from [init] satisfies: a timer that is not
    stopped has a start time, the total is the one of its session type,
    and neither the remaining seconds nor the count is negative. *)
Definition well_formed (t : PomodoroTimer) : Prop :=
  (state t = STOPPED \/ exists s, start_time t = Some s) /\
  total_seconds t = duration_table (session_type t) /\
  0 <= remaining_seconds t /\
  0 <= pomodoros_completed t.

Definition count_starts (cs : list Call) : nat :=
  length (List.filter is_start cs).

(** A timer that is not stopped is in a session that was started. *)
Definition open_sessions (t : PomodoroTimer) : nat :=
  match state t with
  | STOPPED => 0
  | _ => 1
  end.

End TimerRuns.

(** ** The time display *)

Module TimerDisplay.

Import Timer.

(** The format [{:02d}]: the decimal digits, with the sign of a negative
    number, filled with a zero up to two characters. *)
Definition format_02d (x : Z) : string :=
  let digits := pretty x in
  if (String.length digits <? 2)%nat then "0" +:+ digits else digits.

(** [get_time_display] *)
Definition get_time_display (t : PomodoroTimer) : string :=
  let minutes := remaining_seconds t / 60 in
  let seconds := remaining_seconds t mod 60 in
  format_02d minutes +:+ ":" +:+ format_02d seconds.

(** The five characters MM:SS of r seconds. *)
Definition mm_ss (r : Z) : string :=
  let digit x := pretty_N_char (Z.to_N x) in
  String (digit (r / 60 / 10)) (String (digit ((r / 60) mod 10))
    (String ":" (String (digit (r mod 60 / 10)) (String (digit ((r mod 60) mod 10))
       EmptyString)))).

End TimerDisplay.

(** ** The store over its life *)

Module Store.

Import Tasks.

(** The ids of the list are all different, at least 1 and below the
    counter, which is at least 1 itself. *)
Definition unique_ids (tm : TaskManager) : Prop :=
  NoDup (id <$> tasks tm) /\
  1 <= next_id tm /\
  forall t, t ∈ tasks tm -> 1 <= id t < next_id tm.

(** Every task carries its creation stamp. *)
Definition dated (tm : TaskManager) : Prop :=
  forall t, t ∈ tasks tm -> created_at t <> EmptyString.

(** [datetime.now().isoformat()] is never the empty string. *)
Definition stamped (op : Op) : Prop :=
  match op with
  | OpAdd _ _ _ now_iso => now_iso <> EmptyString
  | _ => True
  end.

(** A new [TaskManager] on the file another one left, made at the clock
    [now_iso]. *)
Definition reload (file : option FileContent) (now_iso : string) : TaskManager :=
  init ((fun f => (f, now_iso)) <$> file).

(** The file holds what the object holds, or there is no file yet and
    the object is the new store. *)
Definition file_current (tm : TaskManager) : Prop :=
  TASKS_FILE tm
    = Some (Dumped (mkTaskFile (next_id tm) (active_task_id tm) (tasks tm))) \/
  tm = mkTaskManager [] 1 None None.

End Store.

(** ** The statistics log over a run *)

Module StatsLog.

Import Stats.

(** The calls of [record_pomodoro] of a run, each with the date it reads
    and the title it is given, oldest first. *)
Definition record_all (st : Statistics) (events : list (string * string)) : Statistics :=
  foldl (fun st e => record_pomodoro st e.1 e.2) st events.

Definition on_day (day : string) (events : list (string * string)) : Z :=
  Z.of_nat (length (filter (fun e => e.1 = day) events)).

Definition on_day_for (day title : string) (events : list (string * string)) : Z :=
  Z.of_nat (length (filter (fun e => e = (day, title)) events)).

(** What [render_stats] prints for a title: its counter today, 0 when it
    has none. *)
Definition counter (st : Statistics) (day title : string) : Z :=
  default 0 (tasks (get_today_stats st day) !! title).

Definition sum_counters (d : DayStats) : Z :=
  map_fold (fun _ c acc => c + acc) 0 (tasks d).

(** Every day's total is the sum of the day's counters. *)
Definition balanced (st : Statistics) : Prop :=
  forall day d, stats st !! day = Some d -> total_pomodoros d = sum_counters d.

End StatsLog.

(** ** The keys of the command table *)

Module Keys.

(** The characters that [handle_input] has a branch for. *)
Definition commands : list ascii :=
  ["q"; "?"; "s"; "k"; "a"; "e"; "c"; "d";
   "1"; "2"; "3"; "4"; "5"; "6"; "7"; "8"; "9"]%char.

Definition is_command (key : ascii) : bool :=
  existsb (Ascii.eqb key) commands.

End Keys.

(** ** The prompt dialogs *)

Module Prompts.

(** What [str] is not: empty. *)
Definition is_empty (s : string) : bool := String.eqb s EmptyString.

(** [priority_map.get(priority_input)] *)
Definition priority_map (priority_input : string) : option string :=
  if String.eqb priority_input "1" then Some "High"%string
  else if String.eqb priority_input "2" then Some "Medium"%string
  else if String.eqb priority_input "3" then Some "Low"%string
  else None.

(** The lines the user types when a dialog asks for them: at the prompt
    for an id, for a title, for a priority choice and for an estimate. *)
Record Typed : Type := mkTyped {
  typed_id : string;
  typed_title : string;
  typed_priority : string;
  typed_estimated : string
}.

Section WithInt.

(** [int] on a string: [None] is the [ValueError]. *)
Variable int_of_str : string -> option Z.

(** [add_task_interactive]; [now_iso] is the stamp of the new task. *)
Definition add_task_interactive (now_iso : string) (typed : Typed)
    (a : App.PomodoroApp) : result App.PomodoroApp :=
  let title := typed_title typed in
  if is_empty title then Ok a
  else
    let priority := default "Medium"%string (priority_map (typed_priority typed)) in
    let estimated_input := typed_estimated typed in
    let estimated :=
      if is_empty estimated_input then 1
      else match int_of_str estimated_input with
           | Some n => n
           | None => 1
           end in
    Ok (App.set_task_manager
          (Tasks.add_task (App.task_manager a) title priority estimated now_iso).2 a).

(** [edit_task_interactive]: the [int] of the estimate is not guarded. *)
Definition edit_task_interactive (typed : Typed) (a : App.PomodoroApp)
    : result App.PomodoroApp :=
  match int_of_str (typed_id typed) with
  | None => Ok a
  | Some task_id =>
      match Tasks.get_task (App.task_manager a) task_id with
      | None => Ok a
      | Some task =>
          let new_title := typed_title typed in
          let priority_input := typed_priority typed in
          let new_priority :=
            if is_empty priority_input then None else priority_map priority_input in
          let estimated_input := typed_estimated typed in
          new_estimated ←
            (if is_empty estimated_input then Ok None
             else match int_of_str estimated_input with
                  | Some n => Ok (Some n)
                  | None => Raise ValueError
                  end);
          Ok (App.set_task_manager
                (Tasks.edit_task (App.task_manager a) task_id
                   (if is_empty new_title then None else Some new_title)
                   new_priority new_estimated) a)
      end
  end.

(** [complete_task_interactive] *)
Definition complete_task_interactive (typed : Typed) (a : App.PomodoroApp)
    : result App.PomodoroApp :=
  match int_of_str (typed_id typed) with
  | None => Ok a
  | Some task_id =>
      Ok (App.set_task_manager (Tasks.complete_task (App.task_manager a) task_id) a)
  end.

(** [delete_task_interactive] *)
Definition delete_task_interactive (typed : Typed) (a : App.PomodoroApp)
    : result App.PomodoroApp :=
  match int_of_str (typed_id typed) with
  | None => Ok a
  | Some task_id =>
      Ok (App.set_task_manager (Tasks.delete_task (App.task_manager a) task_id) a)
  end.

(** The four dialogs of a user who types [typed]. *)
Definition console (now_iso : string) (typed : Typed) : App.Console :=
  App.mkConsole (add_task_interactive now_iso typed) (edit_task_interactive typed)
                (complete_task_interactive typed) (delete_task_interactive typed).

End WithInt.

Definition known_priority (p : string) : Prop :=
  p = "High"%string \/ p = "Medium"%string \/ p = "Low"%string.

Definition known_priorities (tm : Tasks.TaskManager) : Prop :=
  Forall (fun t => known_priority (Tasks.priority t)) (Tasks.tasks tm).

End Prompts.

(** ** [SoundPlayer.play_bell] *)

Module Sound.

(** What the thread of [play_bell] does, one after the other: a run of
    [afplay] or of [paplay] on the bell sound, a terminal bell, a sleep. *)
Inductive Action : Type :=
| Afplay
| Paplay
| TerminalBell
| Sleep (seconds : Q).

Definition is_chime (x : Action) : bool :=
  match x with
  | Sleep _ => false
  | _ => true
  end.

(** [for i in range(count)]: the chime, and a sleep unless it was the
    last. *)
Fixpoint ring (chime : Action) (gap : Q) (count : nat) : list Action :=
  match count with
  | O => []
  | S n =>
      chime :: match n with
               | O => []
               | S _ => Sleep gap :: ring chime gap n
               end
  end.

(** [bell_count.get(bell_type, 3)] *)
Definition bell_count (bell_type : string) : nat :=
  if String.eqb bell_type "start" then 1
  else if String.eqb bell_type "pause" then 2
  else if String.eqb bell_type "completion" then 3
  else 3.

(** The [try] block of [_play] when nothing raises. *)
Definition attempt (platform bell_type : string) : list Action :=
  if String.eqb platform "darwin" then
    if String.eqb bell_type "start" then [Afplay]
    else if String.eqb bell_type "pause" then [Afplay; Sleep (2 # 10); Afplay]
    else if String.eqb bell_type "completion" then ring Afplay (3 # 10) 3
    else []
  else if String.prefix "linux" platform then
    ring Paplay (3 # 10) (bell_count bell_type)
  else ring TerminalBell (3 # 10) (bell_count bell_type).

(** The [except] block. *)
Definition fallback (bell_type : string) : list Action :=
  ring TerminalBell (2 # 10) (bell_count bell_type).

(** [_play]; [raises_at] is the position of the action of the [try]
    block that raises, if one does. *)
Definition _play (platform bell_type : string) (raises_at : option nat) : list Action :=
  match raises_at with
  | Some k =>
      if (k <? length (attempt platform bell_type))%nat
      then take k (attempt platform bell_type) ++ fallback bell_type
      else attempt platform bell_type
  | None => attempt platform bell_type
  end.

(** The argument each of [play_start_sound], [play_pause_sound] and
    [play_completion_sound] passes to [play_bell]. *)
Definition bell_type (b : Bell) : string :=
  match b with
  | BellStart => "start"
  | BellPause => "pause"
  | BellCompletion => "completion"
  end.

Definition chimes (l : list Action) : nat := length (List.filter is_chime l).

Definition bells_of (b : Bell) : nat :=
  match b with
  | BellStart => 1
  | BellPause => 2
  | BellCompletion => 3
  end.

End Sound.

(** ** [PomodoroTimer] on the clock of the machine

    [time.time()] returns a binary64 float, and the differences and the
    sum that [start], [skip] and [update] compute are rounded to binary64.
    [Timer64] is the class with this arithmetic: the same fields and the
    same methods as [Timer], the clock fields being floats. Where a
    property depends on what the subtractions return, it is stated on
    [Timer64]; [Timer] is the class on a clock without rounding. *)

Module Timer64.

Import Timer.

(** The number a float stands for; the infinities and nan stand for
    none. *)
Definition float_value (x : float) : option Q :=
  match Prim2SF x with
  | S754_zero _ => Some 0%Q
  | S754_finite s m e =>
      let n := if s then Z.neg m else Z.pos m in
      Some (if 0 <=? e then inject_Z (n * 2 ^ e)
            else n # (2 ^ Z.to_pos (- e))%positive)
  | S754_infinity _ | S754_nan => None
  end.

(** [int(x)]: truncation toward zero, [OverflowError] on an infinity and
    [ValueError] on nan. *)
Definition int (x : float) : result Z :=
  match float_value x with
  | Some q => Ok (int_of_float q)
  | None => if is_nan x then Raise ValueError else Raise OverflowError
  end.

(** The conversion of the [int] operand of a float subtraction: the
    nearest float, ties to even, [OverflowError] beyond the largest. *)
Definition float_of_int (z : Z) : result float :=
  let x := SF2Prim (binary_normalize prec emax z 0 false) in
  if is_infinity x then Raise OverflowError else Ok x.

(** [paused_time] is the integer [0] until the first [pause()]; in the
    one place it is read, [time.time() - self.paused_time], the integer
    is converted to the float [0.0]. *)
Record PomodoroTimer : Type := mkTimer {
  state : TimerState;
  session_type : SessionType;
  remaining_seconds : Z;
  total_seconds : Z;
  pomodoros_completed : Z;
  start_time : option float;
  paused_time : float
}.

Definition set_state (v : TimerState) (t : PomodoroTimer) : PomodoroTimer :=
  mkTimer v (session_type t) (remaining_seconds t) (total_seconds t)
          (pomodoros_completed t) (start_time t) (paused_time t).

Definition set_session_type (v : SessionType) (t : PomodoroTimer) : PomodoroTimer :=
  mkTimer (state t) v (remaining_seconds t) (total_seconds t)
          (pomodoros_completed t) (start_time t) (paused_time t).

Definition set_remaining_seconds (v : Z) (t : PomodoroTimer) : PomodoroTimer :=
  mkTimer (state t) (session_type t) v (total_seconds t)
          (pomodoros_completed t) (start_time t) (paused_time t).

Definition set_total_seconds (v : Z) (t : PomodoroTimer) : PomodoroTimer :=
  mkTimer (state t) (session_type t) (remaining_seconds t) v
          (pomodoros_completed t) (start_time t) (paused_time t).

Definition set_pomodoros_completed (v : Z) (t : PomodoroTimer) : PomodoroTimer :=
  mkTimer (state t) (session_type t) (remaining_seconds t) (total_seconds t)
          v (start_time t) (paused_time t).

Definition set_start_time (v : option float) (t : PomodoroTimer) : PomodoroTimer :=
  mkTimer (state t) (session_type t) (remaining_seconds t) (total_seconds t)
          (pomodoros_completed t) v (paused_time t).

Definition set_paused_time (v : float) (t : PomodoroTimer) : PomodoroTimer :=
  mkTimer (state t) (session_type t) (remaining_seconds t) (total_seconds t)
          (pomodoros_completed t) (start_time t) v.

(** [__init__] *)
Definition init : PomodoroTimer :=
  mkTimer STOPPED WORK (WORK_MINUTES * 60) (WORK_MINUTES * 60) 0 None 0%float.

(** [start]: [pause_duration] and the new [start_time] are a float
    difference and a float sum. *)
Definition start (t : PomodoroTimer) (now : float) : result (PomodoroTimer * list Bell) :=
  match state t with
  | STOPPED =>
      Ok (set_state RUNNING (set_start_time (Some now) t), play_start_sound)
  | PAUSED =>
      let pause_duration := (now - paused_time t)%float in
      match start_time t with
      | Some s =>
          Ok (set_state RUNNING (set_start_time (Some (s + pause_duration)%float) t),
              play_pause_sound)
      | None => Raise TypeError
      end
  | RUNNING => Ok (set_state RUNNING t, [])
  end.

(** [pause] *)
Definition pause (t : PomodoroTimer) (now : float) : PomodoroTimer * list Bell :=
  match state t with
  | RUNNING => (set_paused_time now (set_state PAUSED t), play_pause_sound)
  | _ => (t, [])
  end.

(** [stop] *)
Definition stop (t : PomodoroTimer) : PomodoroTimer :=
  set_remaining_seconds (total_seconds t) (set_state STOPPED t).

(** [start_work] *)
Definition start_work (t : PomodoroTimer) : PomodoroTimer :=
  let t := set_session_type WORK t in
  let t := set_total_seconds (WORK_MINUTES * 60) t in
  let t := set_remaining_seconds (total_seconds t) t in
  set_state STOPPED t.

(** [start_break] *)
Definition start_break (t : PomodoroTimer) (break_type : SessionType) : PomodoroTimer :=
  let t := set_session_type break_type t in
  let t := if SessionType_eqb break_type LONG_BREAK
           then set_total_seconds (LONG_BREAK_MINUTES * 60) t
           else set_total_seconds (SHORT_BREAK_MINUTES * 60) t in
  let t := set_remaining_seconds (total_seconds t) t in
  set_state STOPPED t.

(** [complete_session] *)
Definition complete_session (t : PomodoroTimer) : PomodoroTimer :=
  if SessionType_eqb (session_type t) WORK then
    let t := set_pomodoros_completed (pomodoros_completed t + 1) t in
    if pomodoros_completed t mod POMODOROS_UNTIL_LONG_BREAK =? 0
    then start_break t LONG_BREAK
    else start_break t SHORT_BREAK
  else start_work t.

(** [skip]: [time.time() - self.total_seconds] subtracts an [int] from a
    float. *)
Definition skip (t : PomodoroTimer) (now : float) : result PomodoroTimer :=
  match state t with
  | RUNNING =>
      total ← float_of_int (total_seconds t);
      Ok (set_remaining_seconds 0 (set_start_time (Some (now - total)%float) t))
  | _ => Ok (complete_session t)
  end.

(** [update]: the boolean is the returned completion flag. [elapsed] is
    a float difference, and [time.time() - self.start_time] on [None]
    raises. *)
Definition update (t : PomodoroTimer) (now : float) : result (PomodoroTimer * bool) :=
  if negb (TimerState_eqb (state t) RUNNING) then Ok (t, false)
  else
    match start_time t with
    | None => Raise TypeError
    | Some s =>
        let elapsed := (now - s)%float in
        seconds ← int elapsed;
        let t := set_remaining_seconds (Z.max 0 (total_seconds t - seconds)) t in
        if remaining_seconds t =? 0
        then Ok (complete_session t, true)
        else Ok (t, false)
    end.

(** The calls that can be made on a timer, each with the clock it reads,
    and a run of them: the timer reached and how many of the calls
    returned the completion flag. *)
Inductive Call : Type :=
| CallStart (now : float)
| CallPause (now : float)
| CallStop
| CallSkip (now : float)
| CallUpdate (now : float).

Definition is_start (c : Call) : bool :=
  match c with
  | CallStart _ => true
  | _ => false
  end.

Definition call (t : PomodoroTimer) (c : Call) : result (PomodoroTimer * bool) :=
  match c with
  | CallStart now => '(t', _) ← start t now; Ok (t', false)
  | CallPause now => Ok ((pause t now).1, false)
  | CallStop => Ok (stop t, false)
  | CallSkip now => t' ← skip t now; Ok (t', false)
  | CallUpdate now => update t now
  end.

Fixpoint calls (t : PomodoroTimer) (cs : list Call) : result (PomodoroTimer * nat) :=
  match cs with
  | [] => Ok (t, 0%nat)
  | c :: rest =>
      '(t1, flag) ← call t c;
      '(t2, n) ← calls t1 rest;
      Ok (t2, if flag : bool then S n else n)
  end.

(** The completion transition as the specification describes it, field
    by field: [t'] is stopped in the session that follows the one of
    [t], with the whole duration of the table remaining, and a finished
    Work session is counted. *)
Definition next_session (t : PomodoroTimer) : SessionType :=
  match session_type t with
  | WORK => if (pomodoros_completed t + 1) mod 4 =? 0 then LONG_BREAK else SHORT_BREAK
  | _ => WORK
  end.

Definition completed (t t' : PomodoroTimer) : Prop :=
  state t' = STOPPED /\
  session_type t' = next_session t /\
  total_seconds t' = duration_table (next_session t) /\
  remaining_seconds t' = duration_table (next_session t) /\
  pomodoros_completed t' =
    match session_type t with
    | WORK => pomodoros_completed t + 1
    | _ => pomodoros_completed t
    end.




(** A reading that is not before the one of the call before it. *)
Definition reading (c : Call) : option float :=
  match c with
  | CallStart now | CallPause now | CallSkip now | CallUpdate now => Some now
  | CallStop => None
  end.

Fixpoint clock_monotone (c0 : float) (cs : list Call) : bool :=
  match cs with
  | [] => true
  | c :: rest =>
      match reading c with
      | Some now => (c0 <=? now)%float && clock_monotone now rest
      | None => clock_monotone c0 rest
      end
  end.

End Timer64.

(** * Properties *)

(** ** Truncation of clock differences *)

Section Truncation.

Lemma int_of_float_nonneg (x : Q) : (0 <= x)%Q -> int_of_float x = Qfloor x.
Proof.
  destruct x as [n d]. unfold Qle, int_of_float. simpl. intros H.
  apply Z.quot_div_nonneg; lia.
Qed.

Lemma int_of_float_neg (x : Q) : (x < 0)%Q -> int_of_float x = Qceiling x.
Proof.
  destruct x as [n d]. unfold Qlt, int_of_float, Qceiling. simpl. intros H.
  rewrite <- (Z.opp_involutive n) at 1.
  rewrite Z.quot_opp_l by lia.
  f_equal. apply Z.quot_div_nonneg; lia.
Qed.

Lemma int_of_float_Qeq (x y : Q) : (x == y)%Q -> int_of_float x = int_of_float y.
Proof.
  intros E. destruct (Qlt_le_dec x 0) as [Hx | Hx].
  - assert (Hy : (y < 0)%Q) by (rewrite <- E; exact Hx).
    rewrite !int_of_float_neg by assumption. now apply Qceiling_comp.
  - assert (Hy : (0 <= y)%Q) by (rewrite <- E; exact Hx).
    rewrite !int_of_float_nonneg by assumption. now apply Qfloor_comp.
Qed.

Lemma int_of_float_inject_Z (z : Z) : int_of_float (inject_Z z) = z.
Proof. unfold int_of_float. simpl. apply Z.quot_1_r. Qed.

Lemma int_of_float_le (x y : Q) : (x <= y)%Q -> int_of_float x <= int_of_float y.
Proof.
  intros L. destruct (Qlt_le_dec x 0) as [Hx | Hx]; destruct (Qlt_le_dec y 0) as [Hy | Hy].
  - rewrite !int_of_float_neg by assumption. now apply Qceiling_resp_le.
  - rewrite (int_of_float_neg x), (int_of_float_nonneg y) by assumption.
    transitivity 0.
    + change 0 with (Qceiling 0). apply Qceiling_resp_le. now apply Qlt_le_weak.
    + change 0 with (Qfloor 0). now apply Qfloor_resp_le.
  - exfalso. apply (Qlt_irrefl 0). eapply Qle_lt_trans; [exact Hx |].
    eapply Qle_lt_trans; eassumption.
  - rewrite !int_of_float_nonneg by assumption. now apply Qfloor_resp_le.
Qed.

Lemma int_of_float_lt_inject_Z (x : Q) (z : Z) :
  (0 <= x)%Q -> (x < inject_Z z)%Q -> int_of_float x < z.
Proof.
  intros H0 Hlt. rewrite int_of_float_nonneg by assumption.
  destruct (Z_lt_le_dec (Qfloor x) z) as [|Hge]; [assumption | exfalso].
  apply (Qlt_irrefl x). eapply Qlt_le_trans; [exact Hlt |].
  eapply Qle_trans; [| apply Qfloor_le].
  rewrite <- Zle_Qle. exact Hge.
Qed.

End Truncation.

(** ** The timer *)

Section TimerFacts.

Import Timer.

Lemma TimerState_eqb_eq (a b : TimerState) : TimerState_eqb a b = true <-> a = b.
Proof. destruct a, b; simpl; split; congruence. Qed.

Lemma complete_session_stopped (t : PomodoroTimer) : state (complete_session t) = STOPPED.
Proof.
  unfold complete_session.
  destruct (SessionType_eqb (session_type t) WORK); [| reflexivity].
  match goal with |- context [if ?b then _ else _] => destruct b end; reflexivity.
Qed.

Lemma complete_session_next (t : PomodoroTimer) :
  session_type (complete_session t) =
    match session_type t with
    | WORK => if (pomodoros_completed t + 1) mod 4 =? 0 then LONG_BREAK else SHORT_BREAK
    | _ => WORK
    end.
Proof.
  destruct t as [st ty rem tot n s p]. unfold complete_session. simpl.
  destruct ty; simpl; try reflexivity.
  unfold POMODOROS_UNTIL_LONG_BREAK. destruct (_ =? 0); reflexivity.
Qed.

(** C4. The completion transition: a Work session adds one to the count of
    completed work sessions and is followed by a LongBreak when the new
    count is 0 modulo 4 and by a ShortBreak otherwise; a break is followed
    by Work with the count as it was; the new session has the total of the
    duration table (25, 5 and 15 minutes), all of it remaining, and the
    timer is Stopped. *)
Theorem complete_session_transition (t : PomodoroTimer) :
  let t' := complete_session t in
  pomodoros_completed t' =
    match session_type t with
    | WORK => pomodoros_completed t + 1
    | _ => pomodoros_completed t
    end /\
  session_type t' =
    match session_type t with
    | WORK => if (pomodoros_completed t + 1) mod 4 =? 0 then LONG_BREAK else SHORT_BREAK
    | _ => WORK
    end /\
  match session_type t with
  | WORK => session_type t' = LONG_BREAK <-> (4 | pomodoros_completed t + 1)
  | _ => True
  end /\
  total_seconds t' = duration_table (session_type t') /\
  remaining_seconds t' = total_seconds t' /\
  state t' = STOPPED.
Proof.
  destruct t as [st ty rem tot n s p]. unfold complete_session. simpl.
  destruct ty; simpl; try (repeat split; reflexivity).
  unfold POMODOROS_UNTIL_LONG_BREAK.
  destruct (Z.eqb_spec ((n + 1) mod 4) 0) as [E | E]; simpl;
    repeat split; try reflexivity; try discriminate; intros H.
  - apply Z.mod_divide; [lia | exact E].
  - exfalso. apply E. apply Z.mod_divide; [lia | exact H].
Qed.

(** The first six completions of work sessions, each followed by the
    completion of its break. *)
Example six_completions :
  let after n := Nat.iter n (fun t => complete_session (complete_session t)) init in
  map (fun n => session_type (complete_session (after n))) (seq 0 6)
  = [SHORT_BREAK; SHORT_BREAK; SHORT_BREAK; LONG_BREAK; SHORT_BREAK; SHORT_BREAK].
Proof. reflexivity. Qed.

Lemma update_not_running (t : PomodoroTimer) (now : Q) :
  state t <> RUNNING -> update t now = Ok (t, false).
Proof.
  intros H. unfold update.
  destruct (TimerState_eqb (state t) RUNNING) eqn:E; [| reflexivity].
  apply TimerState_eqb_eq in E. contradiction.
Qed.

Lemma update_running (t : PomodoroTimer) (s now : Q) :
  state t = RUNNING -> start_time t = Some s ->
  update t now =
    let t1 := set_remaining_seconds
                (Z.max 0 (total_seconds t - int_of_float (now - s))) t in
    if remaining_seconds t1 =? 0 then Ok (complete_session t1, true)
    else Ok (t1, false).
Proof. intros Hs Ht. unfold update. rewrite Hs, Ht. reflexivity. Qed.

(** Once the total has elapsed, [update] runs the completion. *)
Lemma update_expired (t : PomodoroTimer) (s now : Q) :
  state t = RUNNING -> start_time t = Some s ->
  (inject_Z (total_seconds t) <= now - s)%Q ->
  update t now = Ok (complete_session (set_remaining_seconds 0 t), true).
Proof.
  intros Hs Ht Hle. rewrite (update_running t s now Hs Ht).
  apply int_of_float_le in Hle. rewrite int_of_float_inject_Z in Hle.
  cbv zeta. replace (Z.max 0 (total_seconds t - int_of_float (now - s))) with 0 by lia.
  reflexivity.
Qed.

End TimerFacts.

(** ** Skip and the loop *)

Section SkipAndLoop.

Import Timer.

Variable ui : App.Console.

(** The [k] key, help closed: nothing but the timer changes, and the
    completion handler is not called. *)
Lemma handle_input_skip (a : App.PomodoroApp) (now : Q) :
  App.show_help a = false ->
  App.handle_input ui a "k" now = Ok (App.set_timer (skip (App.timer a) now) a).
Proof. intros H. unfold App.handle_input. rewrite H. reflexivity. Qed.


End SkipAndLoop.

(** ** The timer on binary64 readings *)

Section Timer64Facts.

Import Timer Timer64.

Lemma int_exact (x : float) (q : Q) : float_value x = Some q -> int x = Ok (int_of_float q).
Proof. intros E. unfold int. rewrite E. reflexivity. Qed.

(** [complete_session] is the completion transition of the
    specification, whatever the remaining seconds were. *)
Lemma complete_session_completed (t : PomodoroTimer) (v : Z) :
  completed t (complete_session t) /\
  completed t (complete_session (set_remaining_seconds v t)).
Proof.
  destruct t as [st ty rem tot n s p].
  unfold completed, next_session, complete_session. simpl.
  destruct ty; simpl; [| repeat split; reflexivity ..].
  unfold POMODOROS_UNTIL_LONG_BREAK.
  destruct ((n + 1) mod 4 =? 0); simpl; repeat split; reflexivity.
Qed.



Lemma update_computed (t : PomodoroTimer) (s now : float) (E : Q) :
  state t = RUNNING -> start_time t = Some s -> float_value (now - s) = Some E ->
  update t now =
    let t1 := set_remaining_seconds
                (Z.max 0 (total_seconds t - int_of_float E)) t in
    if remaining_seconds t1 =? 0 then Ok (complete_session t1, true)
    else Ok (t1, false).
Proof.
  intros Hs Ht HE. unfold update. rewrite Hs, Ht.
  cbn [TimerState_eqb negb]. rewrite (int_exact _ _ HE). reflexivity.
Qed.

(** Before the computed elapsed time reaches the total. *)
Lemma update_computed_early (t : PomodoroTimer) (s now : float) (E : Q) :
  state t = RUNNING -> start_time t = Some s -> float_value (now - s) = Some E ->
  (0 <= E)%Q -> (E < inject_Z (total_seconds t))%Q ->
  update t now = Ok (set_remaining_seconds (total_seconds t - Qfloor E) t, false) /\
  0 < total_seconds t - Qfloor E.
Proof.
  intros Hs Ht HE H0 Hlt. rewrite (update_computed t s now E Hs Ht HE).
  pose proof (int_of_float_lt_inject_Z E _ H0 Hlt) as Hi.
  rewrite (int_of_float_nonneg E H0) in *.
  remember (Qfloor E) as f eqn:Ef. clear Ef.
  cbv zeta. simpl remaining_seconds.
  destruct (Z.eqb_spec (Z.max 0 (total_seconds t - f)) 0); [lia |].
  split; [| lia]. do 2 f_equal. f_equal. lia.
Qed.













Variable ui : App.Console.



End Timer64Facts.


Section Timer64Runs.

Import Timer Timer64.

(** X5. [stop] throws the elapsed time away: whatever the timer was
    doing, it is left stopped with all of the session remaining, the
    session type, the total and the count as they were, and the [start]
    that follows rings the start bell, stores its reading as the start
    time and runs the session from its beginning: a read whose computed
    elapsed time is E, 0 <= E < total, leaves total - floor(E). *)
Theorem stop_restarts_session (t : PomodoroTimer) (now later : float) (E : Q)
    (Hel : float_value (later - now)%float = Some E)
    (HE : (0 <= E)%Q /\ (E < inject_Z (total_seconds t))%Q) :
  let t1 := stop t in
  state t1 = STOPPED /\ remaining_seconds t1 = total_seconds t /\
  session_type t1 = session_type t /\ total_seconds t1 = total_seconds t /\
  pomodoros_completed t1 = pomodoros_completed t /\
  exists t2,
    start t1 now = Ok (t2, play_start_sound) /\
    start_time t2 = Some now /\
    update t2 later =
      Ok (set_remaining_seconds (total_seconds t - Qfloor E) t2, false).
Proof.
  intros t1. repeat split.
  set (t2 := set_state RUNNING (set_start_time (Some now) t1)).
  exists t2. split; [reflexivity | split; [reflexivity |]].
  destruct HE as [H0 Hlt].
  exact (proj1 (update_computed_early t2 now later E eq_refl eq_refl Hel H0 Hlt)).
Qed.

(** Paused 400 seconds into a work session, stopped, started again at
    the reading 1700001000.1: 2.5 seconds later 1498 seconds remain. *)
Lemma stop_restarts_session_witness :
  let t := mkTimer PAUSED WORK 1100 1500 0 (Some 1700000000.1%float) 1700000400.1%float in
  exists t2,
    start (stop t) 1700001000.1%float = Ok (t2, play_start_sound) /\
    start_time t2 = Some 1700001000.1%float /\
    update t2 1700001002.6%float = Ok (set_remaining_seconds 1498 t2, false).
Proof.
  intros t.
  destruct (stop_restarts_session t 1700001000.1%float 1700001002.6%float _ eq_refl)
    as (_ & _ & _ & _ & _ & t2 & Hs & Ht & Hu).
  - split; now vm_compute.
  - exists t2. split; [exact Hs | split; [exact Ht | exact Hu]].
Defined.

Lemma complete_session_total (t : PomodoroTimer) :
  0 <= total_seconds (complete_session t) /\
  remaining_seconds (complete_session t) = total_seconds (complete_session t).
Proof.
  destruct (complete_session_completed t 0) as [(_ & _ & Ht & Hr & _) _].
  rewrite Hr, Ht. split; [| reflexivity].
  destruct (next_session t); now vm_compute.
Qed.

Lemma call_remaining (t t' : PomodoroTimer) (c : Call) (flag : bool) :
  0 <= remaining_seconds t -> 0 <= total_seconds t ->
  call t c = Ok (t', flag) ->
  0 <= remaining_seconds t' /\ 0 <= total_seconds t'.
Proof.
  intros Hr Ht. pose proof (complete_session_total t) as [Hc1 Hc2].
  destruct c as [now | now | | now | now]; simpl.
  - unfold start. destruct (state t); [| | destruct (start_time t)];
      simpl; intros H; try discriminate; injection H as <- _; simpl; lia.
  - unfold pause. destruct (state t); simpl; intros H; injection H as <- _; simpl; lia.
  - intros H. injection H as <- _. simpl. lia.
  - unfold skip. destruct (state t); [| destruct (float_of_int _) |];
      simpl; intros H; try discriminate; injection H as <- _; simpl; lia.
  - unfold update. destruct (negb _); [intros H; injection H as <- _; lia |].
    destruct (start_time t); [| discriminate].
    destruct (int _) as [k |]; [| discriminate]. simpl.
    destruct (Z.eqb_spec (Z.max 0 (total_seconds t - k)) 0).
    + intros H. injection H as <- _.
      pose proof (complete_session_total
                    (set_remaining_seconds (Z.max 0 (total_seconds t - k)) t)) as [? ?].
      lia.
    + intros H. injection H as <- _. simpl. lia.
Qed.

(** X2. The remaining seconds of a timer are never negative: whatever
    calls are made on a timer whose remaining seconds and total are not
    negative, the timer they reach has them not negative either. They
    can exceed the total, even when the readings never go back: started
    and paused at the reading 3 and resumed and read at 2^53 + 6, a
    session of 1500 seconds has 1502 remaining, the start time having
    been rounded up to 2^53 + 8. *)
Theorem remaining_never_negative (cs : list Call) (t t' : PomodoroTimer) (n : nat)
    (Hrem : 0 <= remaining_seconds t) (Htot : 0 <= total_seconds t)
    (Hrun : calls t cs = Ok (t', n)) :
  (0 <= remaining_seconds t' /\ 0 <= total_seconds t') /\
  let late := [CallStart 3%float; CallPause 3%float;
               CallStart 9007199254740998%float; CallUpdate 9007199254740998%float] in
  clock_monotone 0%float late = true /\
  calls init late
    = Ok (mkTimer RUNNING WORK 1502 1500 0 (Some 9007199254741000%float) 3%float, 0%nat).
Proof.
  split; [| split; reflexivity].
  revert t t' n Hrem Htot Hrun.
  induction cs as [| c cs IH]; intros t t' n Hrem Htot Hrun; simpl in Hrun.
  - injection Hrun as <- _. split; assumption.
  - destruct (call t c) as [[t1 flag] |] eqn:E1; [| discriminate].
    simpl in Hrun.
    destruct (calls t1 cs) as [[t2 k] |] eqn:E2; [| discriminate].
    simpl in Hrun. injection Hrun as <- _.
    destruct (call_remaining t t1 c flag Hrem Htot E1) as [H1 H2].
    exact (IH t1 t2 k H1 H2 E2).
Qed.

(** A session started, read, paused, resumed, read again and skipped. *)
Lemma remaining_never_negative_witness :
  let cs := [CallStart 1700000005.1%float; CallUpdate 1700000065.3%float;
             CallPause 1700000070.2%float; CallStart 1700000500.9%float;
             CallUpdate 1700000510.4%float; CallSkip 1700000511%float] in
  exists t' n,
    calls init cs = Ok (t', n) /\
    0 <= remaining_seconds t' /\ 0 <= total_seconds t'.
Proof.
  intros cs. eexists _, _. split; [reflexivity |].
  refine (proj1 (remaining_never_negative cs init _ _ _ _ eq_refl)); now vm_compute.
Defined.

End Timer64Runs.

(** ** The completion handler *)

Section CompletionHandler.

Variable ui : App.Console.

(** The handler taken alone: it reads the session type the timer has when
    it is called. *)
Lemma on_session_complete_work (a : App.PomodoroApp) (today : string) :
  Timer.session_type (App.timer a) = Timer.WORK ->
  App.on_session_complete a today =
    let a1 := App.play_bell play_completion_sound a in
    match Tasks.get_active_task (App.task_manager a) with
    | Some task =>
        App.set_stats
          (Stats.record_pomodoro (App.stats a) today (Tasks.title task))
          (App.set_task_manager
             (Tasks.increment_task_pomodoro (App.task_manager a) (Tasks.id task)) a1)
    | None =>
        App.set_stats (Stats.record_pomodoro (App.stats a) today "No task") a1
    end.
Proof.
  intros H. unfold App.on_session_complete. simpl. rewrite H. simpl.
  destruct (Tasks.get_active_task (App.task_manager a)); reflexivity.
Qed.

Lemma on_session_complete_break (a : App.PomodoroApp) (today : string) :
  Timer.session_type (App.timer a) <> Timer.WORK ->
  App.on_session_complete a today = App.play_bell play_completion_sound a.
Proof.
  intros H. unfold App.on_session_complete. simpl.
  destruct (Timer.session_type (App.timer a)); simpl; congruence.
Qed.

(** In the loop the handler runs after [update] has made the transition:
    when a Work session expires, the timer is already on the break, and
    the turn rings the bell and leaves the tasks and the statistics as
    they were. *)
Lemma work_expiry_in_loop (a : App.PomodoroApp) (s now : Q) (today : string) :
  Timer.state (App.timer a) = Timer.RUNNING ->
  Timer.session_type (App.timer a) = Timer.WORK ->
  Timer.start_time (App.timer a) = Some s ->
  (inject_Z (Timer.total_seconds (App.timer a)) <= now - s)%Q ->
  exists a',
    App.tick ui a (App.mkTick now today None 0) = Ok a' /\
    App.task_manager a' = App.task_manager a /\
    App.stats a' = App.stats a /\
    App.bells a' = App.bells a ++ [BellCompletion] /\
    Timer.session_type (App.timer a') <> Timer.WORK.
Proof.
  intros Hs Hty Hst Hexp. unfold App.tick. simpl.
  rewrite (update_expired _ s now Hs Hst Hexp). simpl.
  pose proof (complete_session_next
                (Timer.set_remaining_seconds 0 (App.timer a))) as Hnext.
  simpl in Hnext. rewrite Hty in Hnext.
  assert (Hbreak : Timer.session_type
                     (Timer.complete_session
                        (Timer.set_remaining_seconds 0 (App.timer a))) <> Timer.WORK).
  { rewrite Hnext. destruct (_ =? 0); discriminate. }
  rewrite on_session_complete_break by exact Hbreak.
  eexists. split; [reflexivity |]. simpl. repeat split. exact Hbreak.
Qed.

(** The expiry of a break is what the loop records: the timer is on Work
    again when the handler runs. *)
Lemma break_expiry_in_loop (a : App.PomodoroApp) (s now : Q) (today : string) :
  Timer.state (App.timer a) = Timer.RUNNING ->
  Timer.session_type (App.timer a) <> Timer.WORK ->
  Timer.start_time (App.timer a) = Some s ->
  (inject_Z (Timer.total_seconds (App.timer a)) <= now - s)%Q ->
  Tasks.get_active_task (App.task_manager a) = None ->
  exists a',
    App.tick ui a (App.mkTick now today None 0) = Ok a' /\
    App.stats a' = Stats.record_pomodoro (App.stats a) today "No task".
Proof.
  intros Hs Hty Hst Hexp Hact. unfold App.tick. simpl.
  rewrite (update_expired _ s now Hs Hst Hexp). simpl.
  pose proof (complete_session_next
                (Timer.set_remaining_seconds 0 (App.timer a))) as Hnext.
  simpl in Hnext.
  assert (Hwork : Timer.session_type
                    (Timer.complete_session
                       (Timer.set_remaining_seconds 0 (App.timer a))) = Timer.WORK).
  { rewrite Hnext. destruct (Timer.session_type (App.timer a)); congruence. }
  rewrite on_session_complete_work by exact Hwork.
  simpl. rewrite Hact. eexists. split; reflexivity.
Qed.

(** C1, on the code. The task "Write report" is added and made active with
    key 1, the work session is started at clock 0 and expires at 1500: the
    loop rings the completion bell, and the task still has no completed
    pomodoro and the statistics are still empty. The break is then started
    and expires at 1800: that turn counts the pomodoro. *)
Theorem work_session_completion_not_recorded :
  let tm := (Tasks.add_task (Tasks.init None) "Write report" "High" 1
               "2024-05-01T09:00:00").2 in
  let a := App.set_task_manager tm (App.init None) in
  let day := "2024-05-01"%string in
  let work := [App.mkTick 0 day (Some "1"%char) 0;
               App.mkTick 0 day (Some "s"%char) 0;
               App.mkTick 1500 day None 0] in
  let rest := [App.mkTick 1500 day (Some "s"%char) 1500;
               App.mkTick 1800 day None 0] in
  (exists a1,
     App.run ui a work = Ok a1 /\
     Timer.session_type (App.timer a1) = Timer.SHORT_BREAK /\
     Timer.pomodoros_completed (App.timer a1) = 1 /\
     Tasks.active_task_id (App.task_manager a1) = Some 1 /\
     Tasks.completed_pomodoros <$> Tasks.get_active_task (App.task_manager a1) = Some 0 /\
     Stats.stats (App.stats a1) = ∅ /\
     App.bells a1 = [BellStart; BellCompletion]) /\
  (exists a2,
     App.run ui a (work ++ rest) = Ok a2 /\
     Timer.session_type (App.timer a2) = Timer.WORK /\
     Tasks.completed_pomodoros <$> Tasks.get_active_task (App.task_manager a2) = Some 1 /\
     Stats.total_pomodoros (Stats.get_today_stats (App.stats a2) day) = 1).
Proof.
  split; eexists; (split; [reflexivity |]); repeat split; reflexivity.
Qed.

End CompletionHandler.

(** ** The task store *)

Section TaskStoreFacts.

Import Tasks.

Lemma find_task_None (l : list Task) (task_id : Z) :
  find_task l task_id = None <-> (forall t, t ∈ l -> id t <> task_id).
Proof.
  induction l as [| x l IH]; simpl.
  - split; [intros _ t Ht; inversion Ht | reflexivity].
  - destruct (Z.eqb_spec (id x) task_id) as [E | E].
    + split; [discriminate |]. intros H. exfalso. apply (H x); [left | exact E].
    + rewrite IH. split.
      * intros H t Ht. apply elem_of_cons in Ht as [-> | Ht]; [exact E | now apply H].
      * intros H t Ht. apply H. now right.
Qed.

Lemma find_task_Some (l : list Task) (task_id : Z) (t : Task) :
  find_task l task_id = Some t -> t ∈ l /\ id t = task_id.
Proof.
  induction l as [| x l IH]; simpl; [discriminate |].
  destruct (Z.eqb_spec (id x) task_id) as [E | E].
  - intros [= <-]. split; [left | exact E].
  - intros H. destruct (IH H) as [Hin Hid]. split; [now right | exact Hid].
Qed.

(** C10. With no task of this id in the store, [get_task] returns [None],
    and [complete_task], [edit_task] and [increment_task_pomodoro] return
    the store as it was: the task list, the next id, the active reference
    and the file. None of the four can raise. *)
Theorem missing_id_changes_nothing (tm : TaskManager) (task_id : Z)
    (title' priority' : option string) (estimated : option Z)
    (Hmissing : forall t, t ∈ tasks tm -> id t <> task_id) :
  get_task tm task_id = None /\
  complete_task tm task_id = tm /\
  edit_task tm task_id title' priority' estimated = tm /\
  increment_task_pomodoro tm task_id = tm.
Proof.
  assert (E : get_task tm task_id = None) by now apply find_task_None.
  unfold complete_task, edit_task, increment_task_pomodoro. rewrite E.
  repeat split.
Qed.

(** A store of two tasks, asked about id 7. *)
Lemma missing_id_changes_nothing_witness :
  let tm := (run (init None) [OpAdd "A" "High" 1 "t1"; OpAdd "B" "Low" 2 "t2";
                              OpSetActive (Some 2)]).1 in
  get_task tm 7 = None /\
  complete_task tm 7 = tm /\
  edit_task tm 7 (Some "C"%string) None (Some 3) = tm /\
  increment_task_pomodoro tm 7 = tm.
Proof.
  intros tm. apply (missing_id_changes_nothing tm 7).
  intros t Ht. vm_compute in Ht.
  apply elem_of_cons in Ht as [-> | Ht]; [discriminate |].
  apply elem_of_cons in Ht as [-> | Ht]; [discriminate |].
  inversion Ht.
Defined.

(** *** Ids *)

Lemma post_init_id (t : Task) (now_iso : string) : id (post_init t now_iso) = id t.
Proof. unfold post_init. destruct (String.eqb _ _); reflexivity. Qed.

Lemma step_next_id (tm : TaskManager) (op : Op) :
  (step tm op).2 = (if is_add op then [next_id tm] else []) /\
  next_id (step tm op).1 = if is_add op then next_id tm + 1 else next_id tm.
Proof.
  destruct op; simpl; try (split; reflexivity).
  - unfold complete_task. destruct (get_task tm task_id); split; reflexivity.
  - unfold edit_task. destruct (get_task tm task_id); split; reflexivity.
  - unfold increment_task_pomodoro. destruct (get_task tm task_id); split; reflexivity.
Qed.

Lemma run_cons (tm : TaskManager) (op : Op) (ops : list Op) :
  run tm (op :: ops) =
    ((run (step tm op).1 ops).1, (step tm op).2 ++ (run (step tm op).1 ops).2).
Proof.
  simpl. destruct (step tm op) as [tm1 ids1]. simpl.
  destruct (run tm1 ops) as [tm2 ids2]. reflexivity.
Qed.

Lemma run_ids (ops : list Op) (tm : TaskManager) :
  (run tm ops).2
    = (fun k => next_id tm + Z.of_nat k) <$> seq 0 (length (List.filter is_add ops)) /\
  next_id (run tm ops).1 = next_id tm + Z.of_nat (length (List.filter is_add ops)).
Proof.
  revert tm. induction ops as [| op ops IH]; intros tm.
  - simpl. split; [reflexivity | lia].
  - rewrite run_cons. simpl fst. simpl snd.
    destruct (step_next_id tm op) as [Hids Hnext].
    destruct (IH (step tm op).1) as [IHids IHnext].
    rewrite Hids, IHids, IHnext, Hnext. simpl List.filter.
    destruct (is_add op); simpl.
    + split; [| lia]. rewrite Z.add_0_r. f_equal.
      rewrite <- fmap_S_seq, <- list_fmap_compose.
      apply list_fmap_ext. intros _ k _. simpl. lia.
    + split; reflexivity.
Qed.

Lemma seq_from_sorted (base : Z) (n m : nat) :
  StronglySorted Z.lt ((fun k => base + Z.of_nat k) <$> seq m n).
Proof.
  revert m. induction n as [| n IH]; intros m; simpl; constructor.
  - apply IH.
  - apply Forall_forall. intros x Hx.
    apply list_elem_of_fmap in Hx as (k & -> & Hk).
    apply elem_of_seq in Hk. lia.
Qed.

Lemma mutate_task_ids (l : list Task) (task_id : Z) (f : Task -> Task) :
  (forall t, id (f t) = id t) -> id <$> mutate_task l task_id f = id <$> l.
Proof.
  intros Hf. induction l as [| x l IH]; [reflexivity |].
  cbn [mutate_task]. destruct (id x =? task_id); rewrite !fmap_cons.
  - now rewrite Hf.
  - now rewrite IH.
Qed.

Lemma apply_edit_id (title' priority' : option string) (estimated : option Z) (t : Task) :
  id (apply_edit title' priority' estimated t) = id t.
Proof. destruct title', priority', estimated; reflexivity. Qed.

(** What each operation does to the ids of the list. *)
Lemma step_ids (tm : TaskManager) (op : Op) :
  id <$> tasks (step tm op).1 =
    match op with
    | OpAdd _ _ _ _ => (id <$> tasks tm) ++ [next_id tm]
    | OpDelete i => List.filter (fun x => negb (x =? i)) (id <$> tasks tm)
    | _ => id <$> tasks tm
    end.
Proof.
  destruct op; simpl.
  - rewrite fmap_app. reflexivity.
  - reflexivity.
  - unfold complete_task. destruct (get_task tm task_id); [| reflexivity].
    simpl. now apply mutate_task_ids.
  - induction (tasks tm) as [| x l IH]; [reflexivity |].
    rewrite fmap_cons. cbn [List.filter].
    destruct (id x =? task_id); cbn [negb]; rewrite ?fmap_cons, IH; reflexivity.
  - unfold edit_task. destruct (get_task tm task_id); [| reflexivity].
    simpl. apply mutate_task_ids, apply_edit_id.
  - unfold increment_task_pomodoro. destruct (get_task tm task_id); [| reflexivity].
    simpl. now apply mutate_task_ids.
Qed.

Lemma ids_below_fmap (tm : TaskManager) :
  ids_below tm <-> Forall (fun i => i < next_id tm) (id <$> tasks tm).
Proof.
  unfold ids_below. rewrite Forall_fmap, Forall_forall. reflexivity.
Qed.

Lemma step_ids_below (tm : TaskManager) (op : Op) :
  ids_below tm -> ids_below (step tm op).1.
Proof.
  rewrite !ids_below_fmap. intros H.
  destruct (step_next_id tm op) as [_ Hn]. rewrite step_ids.
  assert (Hle : next_id tm <= next_id (step tm op).1)
    by (rewrite Hn; destruct (is_add op); lia).
  assert (H' : Forall (fun i => i < next_id (step tm op).1) (id <$> tasks tm)).
  { eapply Forall_impl; [exact H |]. simpl. intros. lia. }
  destruct op; try exact H'.
  - apply Forall_app. split; [exact H' |].
    constructor; [| constructor]. rewrite Hn. simpl. lia.
  - apply Forall_forall. intros x Hx. apply list_elem_of_In, filter_In in Hx as [Hx _].
    rewrite Forall_forall in H'. apply H'. now apply list_elem_of_In.
Qed.

Lemma run_ids_below (ops : list Op) (tm : TaskManager) :
  ids_below tm -> ids_below (run tm ops).1.
Proof.
  revert tm. induction ops as [| op ops IH]; intros tm H; [exact H |].
  rewrite run_cons. simpl. apply IH, step_ids_below, H.
Qed.

(** C7. [add_task] gives the new task the current [next_id] and adds one
    to the counter, and [delete_task] leaves the counter alone; so over any
    run of operations of the store the ids handed out are [next_id],
    [next_id + 1], ... in this order, strictly increasing, none of them the
    id of a task the store held before, and the ids of the store stay below
    the counter. Three tasks added to the new store, the second deleted
    and a fourth added: the fourth has id 4. *)
Theorem ids_never_reused (tm : TaskManager) (ops : list Op) :
  let ids := (run tm ops).2 in
  let n := length (List.filter is_add ops) in
  (forall (title' priority' : string) (est : Z) (now_iso : string),
     id (add_task tm title' priority' est now_iso).1 = next_id tm /\
     next_id (add_task tm title' priority' est now_iso).2 = next_id tm + 1) /\
  (forall i : Z, next_id (delete_task tm i) = next_id tm) /\
  ids = (fun k => next_id tm + Z.of_nat k) <$> seq 0 n /\
  next_id (run tm ops).1 = next_id tm + Z.of_nat n /\
  StronglySorted Z.lt ids /\
  (ids_below tm ->
     ids_below (run tm ops).1 /\
     forall i t, i ∈ ids -> t ∈ tasks tm -> id t <> i) /\
  (run (init None)
     [OpAdd "first" "High" 1 "t1"; OpAdd "second" "Low" 1 "t2";
      OpAdd "third" "Medium" 1 "t3"; OpDelete 2; OpAdd "fourth" "High" 1 "t4"]).2
    = [1; 2; 3; 4].
Proof.
  intros ids n. destruct (run_ids ops tm) as [Hids Hnext]. fold ids n in Hids, Hnext.
  split; [| split; [| split; [| split; [| split; [| split]]]]].
  - intros. split; reflexivity.
  - reflexivity.
  - exact Hids.
  - exact Hnext.
  - rewrite Hids. apply seq_from_sorted.
  - intros Hb. split; [now apply run_ids_below |].
    intros i t Hi Ht. rewrite Hids in Hi.
    apply list_elem_of_fmap in Hi as (k & -> & _).
    specialize (Hb t Ht). lia.
  - reflexivity.
Qed.

(** In the store holding tasks 1 and 3 an added task gets id 4. *)
Lemma ids_never_reused_witness :
  let tm := (run (init None)
               [OpAdd "first" "High" 1 "t1"; OpAdd "second" "Low" 1 "t2";
                OpAdd "third" "Medium" 1 "t3"; OpDelete 2]).1 in
  (id <$> tasks tm) = [1; 3] /\
  (run tm [OpAdd "fourth" "High" 1 "t4"]).2 = [4] /\
  ids_below (run tm [OpAdd "fourth" "High" 1 "t4"]).1.
Proof.
  intros tm. split; [reflexivity |].
  pose proof (ids_never_reused tm [OpAdd "fourth" "High" 1 "t4"])
    as (_ & _ & Hids & _ & _ & Hbelow & _).
  split; [exact Hids |].
  apply Hbelow.
  intros t Ht. vm_compute in Ht.
  apply elem_of_cons in Ht as [-> | Ht]; [reflexivity |].
  apply elem_of_cons in Ht as [-> | Ht]; [reflexivity |].
  inversion Ht.
Defined.

(** *** The active reference *)

Lemma active_ok_fmap (tm : TaskManager) :
  active_ok tm <->
  match active_task_id tm with
  | Some a => a ∈ id <$> tasks tm
  | None => True
  end.
Proof.
  unfold active_ok. destruct (active_task_id tm) as [a |]; [| reflexivity].
  rewrite list_elem_of_fmap. split; intros (t & H1 & H2); exists t; auto.
Qed.

(** The statement of C3 fails at [set_active_task]: it stores the id it is
    given, here 99 in the empty store. *)
Lemma set_active_accepts_missing_id :
  active_ok (init None) /\
  active_task_id (set_active_task (init None) (Some 99)) = Some 99 /\
  tasks (set_active_task (init None) (Some 99)) = [] /\
  ~ (forall (tm : TaskManager) (op : Op), active_ok tm -> active_ok (step tm op).1).
Proof.
  split; [exact I | split; [reflexivity | split; [reflexivity |]]].
  intros H. specialize (H (init None) (OpSetActive (Some 99)) I).
  destruct H as (t & Ht & _). inversion Ht.
Qed.

(** C3, amended. [set_active_task] checks nothing: it stores what it is
    given and leaves the list alone. The invariant (the active reference,
    when set, is the id of a listed task) is kept by every operation of the
    store as long as [set_active_task] is given [None] or the id of a
    listed task; [delete_task] clears the reference when it is the deleted
    id and keeps it otherwise. *)
Theorem active_reference_invariant (tm : TaskManager) (op : Op)
    (Hinv : active_ok tm) (Hop : names_listed_task tm op) :
  active_ok (step tm op).1 /\
  (forall x : option Z,
     active_task_id (set_active_task tm x) = x /\
     tasks (set_active_task tm x) = tasks tm) /\
  (forall i : Z,
     active_task_id (delete_task tm i) =
       match active_task_id tm with
       | Some a => if a =? i then None else Some a
       | None => None
       end).
Proof.
  split; [| split; [intros; split; reflexivity | reflexivity]].
  apply active_ok_fmap. apply active_ok_fmap in Hinv. rewrite step_ids.
  destruct op as [t p e n | x | i | i | i t p e | i].
  - simpl. destruct (active_task_id tm); [| exact I].
    apply elem_of_app. now left.
  - simpl. destruct x as [i |]; [| exact I].
    destruct Hop as (t & Ht & <-). apply list_elem_of_fmap. now exists t.
  - unfold step, complete_task. simpl.
    destruct (get_task tm i); exact Hinv.
  - simpl. destruct (active_task_id tm) as [a |]; [| exact I].
    destruct (Z.eqb_spec a i) as [E | E]; [exact I |].
    apply list_elem_of_In, filter_In. split; [now apply list_elem_of_In |].
    apply negb_true_iff, Z.eqb_neq, E.
  - unfold step, edit_task. simpl.
    destruct (get_task tm i); exact Hinv.
  - unfold step, increment_task_pomodoro. simpl.
    destruct (get_task tm i); exact Hinv.
Qed.

(** Task 2 of three is made active and then deleted. *)
Lemma active_reference_invariant_witness :
  let tm := (run (init None)
               [OpAdd "first" "High" 1 "t1"; OpAdd "second" "Low" 1 "t2";
                OpAdd "third" "Medium" 1 "t3"]).1 in
  active_ok (set_active_task tm (Some 2)) /\
  active_ok (delete_task (set_active_task tm (Some 2)) 2) /\
  active_task_id (delete_task (set_active_task tm (Some 2)) 2) = None.
Proof.
  intros tm.
  assert (H0 : active_ok tm) by exact I.
  assert (H1 : names_listed_task tm (OpSetActive (Some 2))).
  { exists (mkTask 2 "second" "Low" 1 0 false "t2"). split; [| reflexivity].
    right. left. }
  pose proof (proj1 (active_reference_invariant tm (OpSetActive (Some 2)) H0 H1)) as H2.
  split; [exact H2 |].
  split; [| reflexivity].
  exact (proj1 (active_reference_invariant (set_active_task tm (Some 2)) (OpDelete 2) H2 I)).
Defined.

End TaskStoreFacts.

(** ** The statistics log *)

Section StatisticsFacts.

Import Stats.

Lemma alter_present {A : Type} (f : A -> A) (m : gmap string A) (i : string) (x : A) :
  m !! i = Some x -> alter f i m = <[i := f x]> m.
Proof.
  intros H. apply map_eq. intros j. destruct (decide (i = j)) as [<- | Hne].
  - now rewrite lookup_alter_eq, lookup_insert_eq, H.
  - now rewrite lookup_alter_ne, lookup_insert_ne.
Qed.

(** The dictionary after [record_pomodoro]: today's entry is rewritten,
    with one more in the total and in the counter of the title. *)
Lemma record_pomodoro_stats (st : Statistics) (today task_title : string) :
  let d := get_today_stats st today in
  stats (record_pomodoro st today task_title) =
    <[today := mkDayStats (total_pomodoros d + 1)
                 (<[task_title := default 0 (tasks d !! task_title) + 1]> (tasks d))]>
      (stats st).
Proof.
  unfold record_pomodoro, get_today_stats. cbn [stats save_stats].
  set (m0 := match stats st !! today with
             | Some _ => stats st
             | None => <[today := zero_day]> (stats st)
             end).
  set (d := default zero_day (stats st !! today)).
  assert (H0 : m0 !! today = Some d).
  { subst m0 d. destruct (stats st !! today) eqn:E; simpl.
    - exact E.
    - apply lookup_insert_eq. }
  assert (H1 : forall x, <[today := x]> m0 = <[today := x]> (stats st)).
  { intros x. subst m0. destruct (stats st !! today); [reflexivity |].
    apply insert_insert_eq. }
  rewrite (alter_present _ m0 today d H0), !alter_insert_eq, H1.
  f_equal. clear H0 H1. destruct d as [n ts].
  unfold set_tasks, set_total_pomodoros. simpl.
  destruct (ts !! task_title) as [c |] eqn:E; simpl.
  - apply (f_equal (mkDayStats (n + 1))).
    exact (alter_present (fun c => c + 1) ts task_title c E).
  - apply (f_equal (mkDayStats (n + 1))).
    exact (alter_insert_eq ts task_title (fun c => c + 1) 0).
Qed.

(** C8. [record_pomodoro] adds 1 to today's total and 1 to today's counter
    of the title, starting both from 0 when today has no entry or the
    title no counter, keeps today's other counters and leaves the entry of
    every other date as it was; [get_today_stats] returns today's entry,
    or the entry with total 0 and no counter. With "Write report" recorded
    once on the day before and twice today, today's counter is 2 and the
    entry of the day before is untouched. *)
Theorem record_pomodoro_counts (st : Statistics) (today task_title : string) :
  let st' := record_pomodoro st today task_title in
  let before := get_today_stats st today in
  let after := get_today_stats st' today in
  stats st' !! today = Some after /\
  total_pomodoros after = total_pomodoros before + 1 /\
  tasks after !! task_title = Some (default 0 (tasks before !! task_title) + 1) /\
  (forall other : string, other <> task_title ->
     tasks after !! other = tasks before !! other) /\
  (forall day : string, day <> today -> stats st' !! day = stats st !! day) /\
  get_today_stats st today =
    match stats st !! today with
    | Some d => d
    | None => mkDayStats 0 ∅
    end /\
  (let prior := record_pomodoro init "2024-04-30" "Write report" in
   let twice := record_pomodoro (record_pomodoro prior "2024-05-01" "Write report")
                  "2024-05-01" "Write report" in
   tasks (get_today_stats twice "2024-05-01") !! "Write report"%string = Some 2 /\
   total_pomodoros (get_today_stats twice "2024-05-01") = 2 /\
   stats twice !! "2024-04-30"%string = stats prior !! "2024-04-30"%string /\
   stats prior !! "2024-04-30"%string
     = Some (mkDayStats 1 {[ "Write report"%string := 1 ]})).
Proof.
  intros st' before after.
  pose proof (record_pomodoro_stats st today task_title) as E. cbv zeta in E.
  fold st' before in E.
  assert (Hafter : stats st' !! today =
            Some (mkDayStats (total_pomodoros before + 1)
                    (<[task_title := default 0 (tasks before !! task_title) + 1]>
                       (tasks before))))
    by (rewrite E; apply lookup_insert_eq).
  assert (Ea : after = mkDayStats (total_pomodoros before + 1)
                 (<[task_title := default 0 (tasks before !! task_title) + 1]>
                    (tasks before)))
    by (subst after; unfold get_today_stats; rewrite Hafter; reflexivity).
  split; [now rewrite Ea |]. rewrite Ea. cbn [total_pomodoros tasks].
  split; [reflexivity |].
  split; [apply lookup_insert_eq |].
  split; [intros other Hne; now apply lookup_insert_ne |].
  split; [intros day Hne; rewrite E; now apply lookup_insert_ne |].
  split; [unfold get_today_stats; destruct (stats st !! today); reflexivity |].
  repeat split; vm_compute; reflexivity.
Qed.

End StatisticsFacts.

(** ** The sorted list and the numeric keys *)

Section StableSort.

Context {A : Type} (key : A -> Z).

Lemma insert_by_key_Permutation (x : A) (l : list A) :
  Tasks.insert_by_key key x l ≡ₚ x :: l.
Proof.
  induction l as [| y l IH]; simpl; [reflexivity |].
  destruct (key x <=? key y); [reflexivity |].
  rewrite IH. apply Permutation_swap.
Qed.

Lemma sort_by_key_Permutation (l : list A) : Tasks.sort_by_key key l ≡ₚ l.
Proof.
  induction l as [| x l IH]; simpl; [reflexivity |].
  rewrite insert_by_key_Permutation. now rewrite IH.
Qed.

Lemma insert_by_key_sorted (x : A) (l : list A) :
  StronglySorted (fun a b => key a <= key b) l ->
  StronglySorted (fun a b => key a <= key b) (Tasks.insert_by_key key x l).
Proof.
  induction l as [| y l IH]; simpl; intros H.
  - constructor; constructor.
  - apply StronglySorted_inv in H as [Hl Hy].
    destruct (Z.leb_spec (key x) (key y)) as [Hle | Hlt].
    + constructor; [now constructor |].
      constructor; [exact Hle |].
      eapply Forall_impl; [exact Hy |]. simpl. intros. lia.
    + constructor; [now apply IH |].
      rewrite insert_by_key_Permutation. constructor; [lia | exact Hy].
Qed.

Lemma sort_by_key_sorted (l : list A) :
  StronglySorted (fun a b => key a <= key b) (Tasks.sort_by_key key l).
Proof.
  induction l as [| x l IH]; simpl; [constructor |].
  now apply insert_by_key_sorted.
Qed.

(** Stability: the elements of any one key keep their order. *)
Lemma insert_by_key_stable (k : Z) (x : A) (l : list A) :
  List.filter (fun a => key a =? k) (Tasks.insert_by_key key x l)
  = List.filter (fun a => key a =? k) (x :: l).
Proof.
  induction l as [| y l IH]; [reflexivity |].
  cbn [Tasks.insert_by_key].
  destruct (Z.leb_spec (key x) (key y)) as [Hle | Hlt]; [reflexivity |].
  cbn [List.filter] in *. rewrite IH.
  destruct (Z.eqb_spec (key x) k) as [Ex | Ex];
    destruct (Z.eqb_spec (key y) k) as [Ey | Ey]; try reflexivity.
  lia.
Qed.

Lemma sort_by_key_stable (k : Z) (l : list A) :
  List.filter (fun a => key a =? k) (Tasks.sort_by_key key l)
  = List.filter (fun a => key a =? k) l.
Proof.
  induction l as [| x l IH]; [reflexivity |].
  cbn [Tasks.sort_by_key]. rewrite insert_by_key_stable.
  cbn [List.filter]. now rewrite IH.
Qed.

End StableSort.

Section NumericKeys.

(** The digit branch of [handle_input], help closed. *)
Lemma handle_input_digit (ui : App.Console) (a : App.PomodoroApp) (N : Z) (now : Q) :
  App.show_help a = false -> 1 <= N <= 9 ->
  App.handle_input ui a (App.digit_key N) now =
    let tasks := Tasks.get_incomplete_tasks (App.task_manager a) true in
    if N - 1 <? Z.of_nat (length tasks) then
      match tasks !! Z.to_nat (N - 1) with
      | Some task =>
          Ok (App.set_task_manager
                (Tasks.set_active_task (App.task_manager a) (Some (Tasks.id task))) a)
      | None => Raise IndexError
      end
    else Ok a.
Proof.
  intros Hhelp HN. unfold App.handle_input. rewrite Hhelp.
  assert (HN' : N = 1 \/ N = 2 \/ N = 3 \/ N = 4 \/ N = 5 \/ N = 6 \/ N = 7 \/ N = 8 \/ N = 9)
    by lia.
  destruct HN' as [-> | [-> | [-> | [-> | [-> | [-> | [-> | [-> | ->]]]]]]]];
    reflexivity.
Qed.

(** The one call of [set_active_task] in the program, the digit branch,
    passes the id of a listed task: a numeric key keeps the invariant of
    the store. *)
Lemma numeric_key_keeps_invariant (ui : App.Console) (a : App.PomodoroApp) (N : Z) (now : Q) :
  1 <= N <= 9 -> Tasks.active_ok (App.task_manager a) ->
  exists a',
    App.handle_input ui a (App.digit_key N) now = Ok a' /\
    Tasks.active_ok (App.task_manager a').
Proof.
  intros HN Hinv. destruct (App.show_help a) eqn:Hhelp.
  - exists (App.set_show_help false a). split; [| exact Hinv].
    unfold App.handle_input. now rewrite Hhelp.
  - rewrite (handle_input_digit ui a N now Hhelp HN). cbv zeta.
    set (shown := Tasks.get_incomplete_tasks (App.task_manager a) true).
    destruct (Z.ltb_spec (N - 1) (Z.of_nat (length shown))) as [Hlt | Hge];
      [| exists a; split; [reflexivity | exact Hinv]].
    destruct (lookup_lt_is_Some_2 shown (Z.to_nat (N - 1))) as [t Ht]; [lia |].
    rewrite Ht. eexists. split; [reflexivity |].
    exists t. split; [| reflexivity]. simpl.
    apply list_elem_of_lookup_2 in Ht. subst shown.
    unfold Tasks.get_incomplete_tasks in Ht.
    rewrite sort_by_key_Permutation in Ht.
    apply list_elem_of_In, filter_In in Ht as [Ht _]. now apply list_elem_of_In.
Qed.

(** The statement of C9 fails while the help panel is open: with the
    sorted list A, B, C on the store and help showing, key 3 closes the
    panel and the active reference stays unset. *)
Lemma numeric_key_with_help_open :
  let ui := App.mkConsole Ok Ok Ok Ok in
  let tm := (Tasks.run (Tasks.init None)
               [Tasks.OpAdd "C" "Medium" 1 "t1"; Tasks.OpAdd "A" "High" 1 "t2";
                Tasks.OpAdd "B" "High" 1 "t3"]).1 in
  let a := App.set_show_help true (App.set_task_manager tm (App.init None)) in
  Tasks.title <$> Tasks.get_incomplete_tasks (App.task_manager a) true
    = ["A"; "B"; "C"]%string /\
  App.handle_input ui a (App.digit_key 3) 0 = Ok (App.set_show_help false a) /\
  Tasks.active_task_id (App.task_manager (App.set_show_help false a)) = None /\
  ~ (forall (ui : App.Console) (a : App.PomodoroApp) (N : Z) (now : Q) (task : Tasks.Task),
       1 <= N <= 9 ->
       Tasks.get_incomplete_tasks (App.task_manager a) true !! Z.to_nat (N - 1) = Some task ->
       exists a',
         App.handle_input ui a (App.digit_key N) now = Ok a' /\
         Tasks.active_task_id (App.task_manager a') = Some (Tasks.id task)).
Proof.
  intros ui tm a.
  split; [reflexivity | split; [reflexivity | split; [reflexivity |]]].
  intros H.
  destruct (H ui a 3 0%Q (Tasks.mkTask 1 "C" "Medium" 1 0 false "t1"))
    as (a' & E & Hact); [lia | reflexivity |].
  vm_compute in E. injection E as <-. discriminate Hact.
Qed.

(** C9, amended. With the help panel closed, numeric key N (1 to 9) makes
    active the N-th task of the list that [render_tasks] numbers: the
    tasks not completed, sorted so that priority ranks High, Medium, Low do
    not decrease, tasks of one priority in their insertion order. A key
    beyond the end of the list changes nothing. (With the panel open a key
    only closes it.) *)
Theorem numeric_key_selects (ui : App.Console) (a : App.PomodoroApp) (N : Z) (now : Q)
    (Hhelp : App.show_help a = false) (HN : 1 <= N <= 9) :
  let tm := App.task_manager a in
  let rank := fun t => Tasks.priority_order (Tasks.priority t) in
  let incomplete := List.filter (fun t => negb (Tasks.completed t)) (Tasks.tasks tm) in
  let shown := Tasks.get_incomplete_tasks tm true in
  shown ≡ₚ incomplete /\
  StronglySorted Tasks.by_priority shown /\
  (forall k : Z,
     List.filter (fun t => rank t =? k) shown = List.filter (fun t => rank t =? k) incomplete) /\
  Tasks.priority_order "High" < Tasks.priority_order "Medium"
    < Tasks.priority_order "Low" /\
  (forall task, (N, task) ∈ App.render_tasks a -> shown !! Z.to_nat (N - 1) = Some task) /\
  App.handle_input ui a (App.digit_key N) now =
    Ok (match shown !! Z.to_nat (N - 1) with
        | Some task =>
            App.set_task_manager (Tasks.set_active_task tm (Some (Tasks.id task))) a
        | None => a
        end).
Proof.
  intros tm rank incomplete shown.
  split; [apply (sort_by_key_Permutation rank) |].
  split; [apply (sort_by_key_sorted rank) |].
  split; [intros k; apply (sort_by_key_stable rank) |].
  split; [split; reflexivity |].
  split.
  - intros task Hin. unfold App.render_tasks in Hin. fold tm shown in Hin.
    apply elem_of_lookup_imap in Hin as (i & t & Heq & Hi).
    injection Heq as HNi <-.
    apply lookup_take_Some in Hi as [Hi _].
    replace (Z.to_nat (N - 1)) with i by lia. exact Hi.
  - rewrite (handle_input_digit ui a N now Hhelp HN). cbv zeta. fold tm shown.
    destruct (Z.ltb_spec (N - 1) (Z.of_nat (length shown))) as [Hlt | Hge].
    + destruct (lookup_lt_is_Some_2 shown (Z.to_nat (N - 1))) as [t Ht]; [lia |].
      rewrite Ht. reflexivity.
    + rewrite (proj2 (lookup_ge_None shown (Z.to_nat (N - 1)))) by lia.
      reflexivity.
Qed.

(** The store holds C (Medium), A (High), B (High), added in this order:
    the rows read 1 A, 2 B, 3 C; key 3 makes C active, key 4 nothing. *)
Lemma numeric_key_selects_witness :
  let ui := App.mkConsole Ok Ok Ok Ok in
  let tm := (Tasks.run (Tasks.init None)
               [Tasks.OpAdd "C" "Medium" 1 "t1"; Tasks.OpAdd "A" "High" 1 "t2";
                Tasks.OpAdd "B" "High" 1 "t3"]).1 in
  let a := App.set_task_manager tm (App.init None) in
  (fun row => (row.1, Tasks.title row.2)) <$> App.render_tasks a
    = [(1, "A"); (2, "B"); (3, "C")]%string /\
  App.handle_input ui a "3" 0
    = Ok (App.set_task_manager (Tasks.set_active_task tm (Some 1)) a) /\
  App.handle_input ui a "4" 0 = Ok a.
Proof.
  intros ui tm a. split; [reflexivity |].
  assert (H3 : 1 <= 3 <= 9) by lia.
  assert (H4 : 1 <= 4 <= 9) by lia.
  split.
  - exact (proj2 (proj2 (proj2 (proj2 (proj2
             (numeric_key_selects ui a 3 0%Q eq_refl H3)))))).
  - exact (proj2 (proj2 (proj2 (proj2 (proj2
             (numeric_key_selects ui a 4 0%Q eq_refl H4)))))).
Defined.

End NumericKeys.

(** ** Runs of timer calls *)

Section TimerRunFacts.

Import Timer TimerRuns.

Lemma complete_session_well_formed (t : PomodoroTimer) :
  0 <= pomodoros_completed t -> well_formed (complete_session t).
Proof.
  intros Hn. unfold well_formed. rewrite complete_session_stopped.
  destruct t as [st ty rem tot n s p]. unfold complete_session. simpl in *.
  unfold POMODOROS_UNTIL_LONG_BREAK.
  destruct ty; simpl; try destruct (_ =? 0); simpl; repeat split;
    first [now left | reflexivity | lia | now vm_compute].
Qed.

Lemma call_well_formed (t : PomodoroTimer) (c : Call) :
  well_formed t ->
  exists t' flag, call t c = Ok (t', flag) /\ well_formed t'.
Proof.
  intros (Hst & Htot & Hrem & Hn).
  assert (Hpos : 0 <= total_seconds t)
    by (rewrite Htot; destruct (session_type t); now vm_compute).
  assert (Hsome : state t <> STOPPED -> exists s, start_time t = Some s)
    by (intros H; destruct Hst as [? | ?]; [contradiction | assumption]).
  assert (Hdone : forall t0, pomodoros_completed t0 = pomodoros_completed t ->
                             well_formed (complete_session t0))
    by (intros t0 E; apply complete_session_well_formed; now rewrite E).
  destruct c as [now | now | | now | now]; simpl.
  - unfold start. destruct (state t) eqn:E;
      [| | destruct Hsome as [s Hs]; [discriminate |]; rewrite Hs];
      (eexists _, _; split; [reflexivity |]);
      repeat split; simpl; try assumption; try lia;
      right; first [now apply Hsome | eauto].
  - eexists _, _. split; [reflexivity |]. unfold pause.
    destruct (state t) eqn:E; simpl;
      repeat split; simpl; try assumption; try lia;
      first [left; exact E | right; now apply Hsome].
  - eexists _, _. split; [reflexivity |].
    unfold stop. repeat split; simpl; try assumption; now left.
  - eexists _, _. split; [reflexivity |]. unfold skip.
    destruct (state t) eqn:E; try (now apply Hdone).
    repeat split; simpl; try assumption; try lia; right; eauto.
  - unfold update. destruct (TimerState_eqb (state t) RUNNING) eqn:E; simpl.
    + apply TimerState_eqb_eq in E.
      destruct Hsome as [s Hs]; [congruence |]. rewrite Hs.
      match goal with |- context [if ?b then _ else _] => destruct b end;
        (eexists _, _; split; [reflexivity |]); [now apply Hdone |].
      repeat split; simpl; try assumption; try lia; right; eauto.
    + eexists _, _. split; [reflexivity |]. repeat split; assumption.
Qed.

(** X1. No run of calls on a well-formed timer raises, and the timer it
    reaches is well formed again; the new timer of [__init__] is well
    formed. *)
Theorem calls_never_raise (cs : list Call) (t : PomodoroTimer)
    (Hwf : well_formed t) :
  well_formed init /\
  exists t' n, calls t cs = Ok (t', n) /\ well_formed t'.
Proof.
  split; [repeat split; first [now left | reflexivity | now vm_compute] |].
  revert t Hwf. induction cs as [| c cs IH]; intros t Hwf.
  - exists t, 0%nat. split; [reflexivity | exact Hwf].
  - destruct (call_well_formed t c Hwf) as (t1 & flag & E1 & Hwf1).
    destruct (IH t1 Hwf1) as (t2 & n & E2 & Hwf2).
    exists t2, (if flag then S n else n). split; [| exact Hwf2].
    simpl. rewrite E1. simpl. rewrite E2. reflexivity.
Qed.

(** A session is started, paused, resumed, skipped and read. *)
Lemma calls_never_raise_witness :
  exists t' n,
    calls init [CallStart 0; CallPause 10; CallStart 20; CallSkip 30; CallUpdate 31]
      = Ok (t', n) /\ well_formed t'.
Proof.
  assert (Hwf : well_formed init)
    by (repeat split; first [now left | reflexivity | now vm_compute]).
  exact (proj2 (calls_never_raise
                  [CallStart 0; CallPause 10; CallStart 20; CallSkip 30; CallUpdate 31]
                  init Hwf)).
Defined.

Lemma call_open_sessions (t t1 : PomodoroTimer) (c : Call) (flag : bool) :
  call t c = Ok (t1, flag) ->
  ((if flag then 1 else 0) + open_sessions t1
   <= (if is_start c then 1 else 0) + open_sessions t)%nat.
Proof.
  destruct c as [now | now | | now | now]; simpl.
  - unfold start, open_sessions.
    destruct (state t); [| | destruct (start_time t)]; simpl;
      intros [= <- <-] || discriminate; simpl; lia.
  - intros [= <- <-]. unfold pause, open_sessions.
    destruct (state t) eqn:E; simpl; rewrite ?E; lia.
  - intros [= <- <-]. unfold open_sessions. simpl. lia.
  - intros [= <- <-]. unfold skip, open_sessions.
    destruct (state t) eqn:E; rewrite ?complete_session_stopped; simpl; rewrite ?E; lia.
  - unfold update, open_sessions. destruct (state t) eqn:E; simpl;
      try (intros [= <- <-]; rewrite E; lia).
    destruct (start_time t); [| discriminate].
    match goal with |- context [if ?b then _ else _] => destruct b end;
      intros [= <- <-]; rewrite ?complete_session_stopped; simpl; rewrite ?E; lia.
Qed.

Lemma calls_open_sessions (cs : list Call) (t t' : PomodoroTimer) (n : nat) :
  calls t cs = Ok (t', n) ->
  (n + open_sessions t' <= count_starts cs + open_sessions t)%nat.
Proof.
  revert t t' n. induction cs as [| c cs IH]; intros t t' n; simpl.
  - intros [= <- <-]. unfold count_starts. simpl. lia.
  - destruct (call t c) as [[t1 flag] | e] eqn:E1; simpl; [| discriminate].
    destruct (calls t1 cs) as [[t2 m] | e] eqn:E2; simpl; [| discriminate].
    intros [= <- <-].
    pose proof (call_open_sessions t t1 c flag E1) as H1.
    pose proof (IH t1 t2 m E2) as H2.
    unfold count_starts in *. simpl. destruct (is_start c), flag; simpl in *; lia.
Qed.

(** X3. On a stopped timer a run of calls reports at most as many
    completions as it has calls of [start]: no session completes that
    was not started. *)
Theorem completions_need_starts (cs : list Call) (t t' : PomodoroTimer) (n : nat)
    (Hstopped : state t = STOPPED) (Hrun : calls t cs = Ok (t', n)) :
  (n <= count_starts cs)%nat.
Proof.
  pose proof (calls_open_sessions cs t t' n Hrun) as H.
  unfold open_sessions in H at 2. rewrite Hstopped in H. lia.
Qed.

(** Two sessions run to their end, the second after a skip; reads of the
    stopped timer in between report nothing. *)
Lemma completions_need_starts_witness :
  (2 <= count_starts [CallUpdate 0; CallStart 1; CallUpdate 1501; CallUpdate 1502;
                      CallStart 1503; CallSkip 1504; CallUpdate 1505])%nat.
Proof.
  refine (completions_need_starts _ init
            (mkTimer STOPPED WORK 1500 1500 1 (Some (1504 - 300)%Q) 0%Q) 2
            eq_refl _).
  reflexivity.
Defined.

(** X4. From the new timer, after k work sessions each followed by its
    break the timer is on Work with count k, and the break that follows
    the next work session is the long one exactly when k + 1 is a
    multiple of 4; every transition leaves the timer stopped. *)
Theorem long_break_every_fourth (k : nat) :
  let t := Nat.iter k (fun t => complete_session (complete_session t)) init in
  session_type t = WORK /\
  pomodoros_completed t = Z.of_nat k /\
  state t = STOPPED /\
  (session_type (complete_session t) = LONG_BREAK <-> (4 | Z.of_nat k + 1)) /\
  (session_type (complete_session t) = SHORT_BREAK <-> ~ (4 | Z.of_nat k + 1)) /\
  session_type (complete_session (complete_session t)) = WORK.
Proof.
  intros t.
  assert (H : session_type t = WORK /\ pomodoros_completed t = Z.of_nat k /\
              state t = STOPPED).
  { subst t. induction k as [| k IH]; [repeat split |].
    rewrite Nat.iter_succ.
    set (u := Nat.iter k _ init) in *. destruct IH as (Hty & Hn & _).
    split; [| split; [| apply complete_session_stopped]].
    - rewrite !complete_session_next, Hty. destruct (_ =? 0); reflexivity.
    - destruct u as [st ty rem tot n s p]. simpl in *. subst ty n.
      unfold complete_session. simpl. unfold POMODOROS_UNTIL_LONG_BREAK.
      destruct (_ =? 0); simpl; lia. }
  destruct H as (Hty & Hn & Hst).
  split; [exact Hty | split; [exact Hn | split; [exact Hst |]]].
  rewrite !complete_session_next, Hty, Hn.
  destruct (Z.eqb_spec ((Z.of_nat k + 1) mod 4) 0) as [E | E].
  - assert (D : (4 | Z.of_nat k + 1)) by (apply Z.mod_divide; [lia | exact E]).
    repeat split; try reflexivity; try discriminate; try (intros; exact D).
    intros H. contradiction.
  - assert (D : ~ (4 | Z.of_nat k + 1))
      by (intros D; apply E, Z.mod_divide; [lia | exact D]).
    repeat split; try reflexivity; try discriminate; try (intros; exact D).
    intros H. contradiction.
Qed.

(** X6. [start] on a running timer and [pause] on a timer that is not
    running return the timer as it is and ring no bell: a running session
    is not restarted, and only a running one can be paused. *)
Theorem start_pause_out_of_turn (t : PomodoroTimer) (now : Q) :
  (state t = RUNNING -> start t now = Ok (t, [])) /\
  (state t <> RUNNING -> pause t now = (t, [])).
Proof.
  split; intros H.
  - unfold start. rewrite H. destruct t; simpl in *. now subst.
  - unfold pause. destruct (state t); congruence.
Qed.

End TimerRunFacts.

(** ** The time display *)

Section TimerDisplayFacts.

Import Timer TimerDisplay.

Lemma display_below_6000 :
  forallb (fun k => let r := Z.of_nat k in
                    String.eqb (format_02d (r / 60) +:+ ":" +:+ format_02d (r mod 60))
                               (mm_ss r))
          (seq 0 (Z.to_nat 6000)) = true.
Proof. vm_compute. reflexivity. Qed.

Lemma get_time_display_mm_ss (t : PomodoroTimer) :
  0 <= remaining_seconds t < 6000 ->
  get_time_display t = mm_ss (remaining_seconds t).
Proof.
  intros Hr. unfold get_time_display. cbv zeta.
  generalize dependent (remaining_seconds t). intros r Hr.
  pose proof display_below_6000 as H. rewrite forallb_forall in H.
  specialize (H (Z.to_nat r)).
  cbv zeta in H. rewrite Z2Nat.id in H by lia.
  apply String.eqb_eq, H, in_seq. lia.
Qed.

Lemma mm_ss_inj (r1 r2 : Z) :
  0 <= r1 < 6000 -> 0 <= r2 < 6000 -> mm_ss r1 = mm_ss r2 -> r1 = r2.
Proof.
  intros H1 H2 E. unfold mm_ss in E. injection E as Ea Eb Ec Ed.
  apply pretty_N_char_inj in Ea, Eb, Ec, Ed;
    try (apply N2Z.inj_lt; rewrite Z2N.id;
         [| first [apply Z.div_pos; [apply Z.div_pos |] | apply Z.mod_pos_bound
                  | apply Z.div_pos; [apply Z.mod_pos_bound |]]; lia];
         first [apply Z.mod_pos_bound; lia
               | apply Z.div_lt_upper_bound; [lia |];
                 first [apply Z.div_lt_upper_bound; lia
                       | pose proof (Z.mod_pos_bound r1 60); pose proof (Z.mod_pos_bound r2 60);
                         lia]]).
  apply Z2N.inj in Ea, Eb, Ec, Ed;
    try first [apply Z.div_pos; [apply Z.div_pos |]; lia
              | apply Z.mod_pos_bound; lia
              | apply Z.div_pos; [apply Z.mod_pos_bound |]; lia].
  rewrite (Z.div_mod r1 60), (Z.div_mod r2 60) by lia.
  rewrite (Z.div_mod (r1 / 60) 10), (Z.div_mod (r2 / 60) 10) by lia.
  rewrite (Z.div_mod (r1 mod 60) 10), (Z.div_mod (r2 mod 60) 10) by lia.
  rewrite Ea, Eb, Ec, Ed. reflexivity.
Qed.

(** X7. With fewer than 100 minutes remaining, [get_time_display] is the
    five characters MM:SS, two digits of minutes and two of seconds below
    60, and two timers show the same display only when the same number of
    seconds remains. *)
Theorem time_display_faithful (t1 t2 : PomodoroTimer)
    (H1 : 0 <= remaining_seconds t1 < 6000)
    (H2 : 0 <= remaining_seconds t2 < 6000) :
  get_time_display t1 = mm_ss (remaining_seconds t1) /\
  String.length (get_time_display t1) = 5%nat /\
  0 <= remaining_seconds t1 mod 60 < 60 /\
  (get_time_display t1 = get_time_display t2 ->
   remaining_seconds t1 = remaining_seconds t2).
Proof.
  rewrite (get_time_display_mm_ss t1 H1), (get_time_display_mm_ss t2 H2).
  split; [reflexivity | split; [reflexivity | split]].
  - apply Z.mod_pos_bound. lia.
  - now apply mm_ss_inj.
Qed.

(** The new timer shows 25:00, and 24:59 a second into the session. *)
Lemma time_display_faithful_witness :
  get_time_display init = "25:00"%string /\
  get_time_display (set_remaining_seconds 1499 init) = "24:59"%string.
Proof.
  assert (H1 : 0 <= remaining_seconds init < 6000) by (split; now vm_compute).
  assert (H2 : 0 <= remaining_seconds (set_remaining_seconds 1499 init) < 6000)
    by (split; now vm_compute).
  split.
  - exact (proj1 (time_display_faithful init init H1 H1)).
  - exact (proj1 (time_display_faithful _ init H2 H1)).
Defined.

End TimerDisplayFacts.

(** ** Lookups in the store *)

Section StoreLookups.

Import Tasks Store.

Lemma find_task_app (l1 l2 : list Task) (j : Z) :
  find_task (l1 ++ l2) j =
    match find_task l1 j with
    | Some t => Some t
    | None => find_task l2 j
    end.
Proof.
  induction l1 as [| x l1 IH]; simpl; [reflexivity |].
  destruct (id x =? j); [reflexivity | exact IH].
Qed.

Lemma find_task_mutate (l : list Task) (i j : Z) (f : Task -> Task) :
  (forall t, id (f t) = id t) ->
  find_task (mutate_task l i f) j =
    if j =? i then f <$> find_task l i else find_task l j.
Proof.
  intros Hf. induction l as [| x l IH]; simpl.
  - destruct (j =? i); reflexivity.
  - destruct (Z.eqb_spec (id x) i) as [Ei | Ei]; simpl.
    + rewrite Hf. destruct (Z.eqb_spec j i) as [Ej | Ej].
      * subst j. rewrite Ei, Z.eqb_refl. reflexivity.
      * destruct (Z.eqb_spec (id x) j); [congruence | reflexivity].
    + destruct (Z.eqb_spec (id x) j) as [Ej | Ej].
      * destruct (Z.eqb_spec j i); [congruence | reflexivity].
      * exact IH.
Qed.

Lemma find_task_filter (l : list Task) (i j : Z) :
  find_task (List.filter (fun t => negb (id t =? i)) l) j =
    if j =? i then None else find_task l j.
Proof.
  induction l as [| x l IH]; simpl.
  - destruct (j =? i); reflexivity.
  - destruct (Z.eqb_spec (id x) i) as [Ei | Ei]; simpl.
    + rewrite IH. destruct (Z.eqb_spec j i) as [Ej | Ej]; [reflexivity |].
      destruct (Z.eqb_spec (id x) j); [congruence | reflexivity].
    + destruct (Z.eqb_spec (id x) j) as [Ej | Ej]; [| exact IH].
      destruct (Z.eqb_spec j i); [congruence | reflexivity].
Qed.

(** X8. [add_task] appends the task it returns, with the fields given,
    no pomodoro, not completed and the stamp of the call, and touches
    neither the active reference nor the lookup of any other id. When the
    ids of the store are below the counter, the new id finds the new
    task; a task that already has this id (a counter gone stale) keeps
    shadowing it. *)
Theorem add_then_get (tm : TaskManager) (title' priority' : string) (est : Z)
    (now_iso : string) :
  let task := (add_task tm title' priority' est now_iso).1 in
  let tm' := (add_task tm title' priority' est now_iso).2 in
  task = mkTask (next_id tm) title' priority' est 0 false now_iso /\
  tasks tm' = tasks tm ++ [task] /\
  active_task_id tm' = active_task_id tm /\
  (forall j, j <> next_id tm -> get_task tm' j = get_task tm j) /\
  (ids_below tm -> get_task tm' (next_id tm) = Some task) /\
  (forall old, get_task tm (next_id tm) = Some old ->
               get_task tm' (next_id tm) = Some old).
Proof.
  intros task tm'.
  assert (Etask : task = mkTask (next_id tm) title' priority' est 0 false now_iso)
    by reflexivity.
  assert (Eget : forall j, get_task tm' j =
            match get_task tm j with
            | Some t => Some t
            | None => if next_id tm =? j then Some task else None
            end).
  { intros j. unfold get_task. change (tasks tm') with (tasks tm ++ [task]).
    rewrite find_task_app. destruct (find_task (tasks tm) j); [reflexivity |].
    rewrite Etask. reflexivity. }
  split; [exact Etask | split; [reflexivity | split; [reflexivity |]]].
  split; [| split].
  - intros j Hj. rewrite Eget. destruct (get_task tm j); [reflexivity |].
    destruct (Z.eqb_spec (next_id tm) j); [congruence | reflexivity].
  - intros Hb. rewrite Eget.
    assert (E : get_task tm (next_id tm) = None).
    { apply find_task_None. intros t Ht. specialize (Hb t Ht). lia. }
    rewrite E, Z.eqb_refl. reflexivity.
  - intros old Hold. rewrite Eget, Hold. reflexivity.
Qed.

(** X9. [delete_task] removes every task of the id: the id is no longer
    found, every other id finds what it found before, the counter is
    kept, and a second deletion of the same id changes nothing. *)
Theorem delete_then_get (tm : TaskManager) (i : Z) :
  get_task (delete_task tm i) i = None /\
  (forall j, j <> i -> get_task (delete_task tm i) j = get_task tm j) /\
  next_id (delete_task tm i) = next_id tm /\
  (length (tasks (delete_task tm i)) <= length (tasks tm))%nat /\
  delete_task (delete_task tm i) i = delete_task tm i.
Proof.
  unfold get_task, delete_task. simpl.
  split; [| split; [| split; [| split]]].
  - rewrite find_task_filter, Z.eqb_refl. reflexivity.
  - intros j Hj. rewrite find_task_filter.
    destruct (Z.eqb_spec j i); [congruence | reflexivity].
  - reflexivity.
  - apply filter_length_le.
  - assert (Ef : List.filter (fun t => negb (id t =? i))
                   (List.filter (fun t => negb (id t =? i)) (tasks tm))
                 = List.filter (fun t => negb (id t =? i)) (tasks tm)).
    { induction (tasks tm) as [| x l IH]; simpl; [reflexivity |].
      destruct (negb (id x =? i)) eqn:E; simpl; rewrite ?E, IH; reflexivity. }
    rewrite Ef.
    destruct (active_task_id tm) as [a |]; [| reflexivity].
    destruct (Z.eqb_spec a i) as [Ea | Ea]; [reflexivity |].
    destruct (Z.eqb_spec a i); [contradiction | reflexivity].
Qed.

Lemma elem_of_mutate_task (l : list Task) (i : Z) (f : Task -> Task) (t' : Task) :
  NoDup (id <$> l) ->
  t' ∈ mutate_task l i f <->
  (t' ∈ l /\ id t' <> i) \/ (exists t0, find_task l i = Some t0 /\ t' = f t0).
Proof.
  induction l as [| x l IH]; intros Hnd.
  - simpl. split; [intros H; inversion H |].
    intros [[H _] | (t0 & H & _)]; [inversion H | discriminate].
  - rewrite fmap_cons in Hnd. apply NoDup_cons in Hnd as [Hx Hnd].
    cbn [mutate_task find_task]. destruct (Z.eqb_spec (id x) i) as [Ei | Ei].
    + rewrite elem_of_cons. split.
      * intros [-> | Hin]; [right; eauto |].
        left. split; [now right |]. intros E. apply Hx.
        apply list_elem_of_fmap. exists t'. split; [congruence | exact Hin].
      * intros [[Hin Hne] | (t0 & [= <-] & ->)]; [| now left].
        apply elem_of_cons in Hin as [-> | Hin]; [contradiction | now right].
    + rewrite elem_of_cons, (IH Hnd). split.
      * intros [-> | [[Hin Hne] | Hex]].
        -- left. split; [now left | exact Ei].
        -- left. split; [now right | exact Hne].
        -- now right.
      * intros [[Hin Hne] | Hex]; [| right; now right].
        apply elem_of_cons in Hin as [-> | Hin]; [now left |].
        right. left. split; assumption.
Qed.

Lemma elem_of_incomplete (tm : TaskManager) (b : bool) (t : Task) :
  t ∈ get_incomplete_tasks tm b <-> t ∈ tasks tm /\ completed t = false.
Proof.
  unfold get_incomplete_tasks.
  assert (H : t ∈ List.filter (fun t => negb (completed t)) (tasks tm)
              <-> t ∈ tasks tm /\ completed t = false).
  { rewrite !list_elem_of_In, filter_In, negb_true_iff. reflexivity. }
  destruct b; [| exact H]. now rewrite sort_by_key_Permutation.
Qed.

(** X10. [complete_task] on an id that is found marks the first task of
    the id completed and leaves every other lookup, the counter and the
    active reference as they were: a completed task stays the active one
    when it was. With all ids different, the lists of incomplete tasks,
    sorted or not, lose this task and nothing else. *)
Theorem complete_then_get (tm : TaskManager) (i : Z) (t : Task)
    (Hfound : get_task tm i = Some t) :
  get_task (complete_task tm i) i = Some (set_completed true t) /\
  (forall j, j <> i -> get_task (complete_task tm i) j = get_task tm j) /\
  next_id (complete_task tm i) = next_id tm /\
  active_task_id (complete_task tm i) = active_task_id tm /\
  (NoDup (id <$> tasks tm) ->
   forall (b : bool) (t' : Task),
     t' ∈ get_incomplete_tasks (complete_task tm i) b <->
     t' ∈ get_incomplete_tasks tm b /\ id t' <> i).
Proof.
  unfold complete_task. rewrite Hfound. unfold get_task in *. simpl.
  split; [| split; [| split; [| split]]]; try reflexivity.
  - rewrite find_task_mutate by reflexivity. now rewrite Z.eqb_refl, Hfound.
  - intros j Hj. rewrite find_task_mutate by reflexivity.
    destruct (Z.eqb_spec j i); [congruence | reflexivity].
  - intros Hnd b t'. rewrite !elem_of_incomplete. simpl.
    rewrite (elem_of_mutate_task _ _ _ _ Hnd), Hfound. split.
    + intros [[[Hin Hne] | (t0 & [= <-] & ->)] Hc]; [tauto | discriminate].
    + intros [[Hin Hc] Hne]. split; [left; tauto | exact Hc].
Qed.

(** Task 2 of three is completed while it is the active one. *)
Lemma complete_then_get_witness :
  let tm := (run (init None)
               [OpAdd "first" "High" 1 "t1"; OpAdd "second" "Low" 1 "t2";
                OpAdd "third" "Medium" 1 "t3"; OpSetActive (Some 2)]).1 in
  get_task (complete_task tm 2) 2 = Some (mkTask 2 "second" "Low" 1 0 true "t2") /\
  active_task_id (complete_task tm 2) = Some 2.
Proof.
  intros tm.
  pose proof (complete_then_get tm 2 (mkTask 2 "second" "Low" 1 0 false "t2") eq_refl)
    as (H1 & _ & _ & H2 & _).
  split; [exact H1 | exact H2].
Defined.

Lemma mutate_task_same (l : list Task) (i : Z) (f : Task -> Task) :
  (forall t, f t = t) -> mutate_task l i f = l.
Proof.
  intros Hf. induction l as [| x l IH]; simpl; [reflexivity |].
  destruct (id x =? i); [now rewrite Hf | now rewrite IH].
Qed.

(** X11. [edit_task] on an id that is found replaces, in the first task
    of the id, the title, the priority and the estimate by the values
    given and keeps those for which [None] is given; the id, the
    pomodoros done, the completed flag and the stamp are kept, as are
    every other lookup, the counter and the active reference. With three
    times [None] the list is as before. *)
Theorem edit_then_get (tm : TaskManager) (i : Z) (t : Task)
    (title' priority' : option string) (estimated : option Z)
    (Hfound : get_task tm i = Some t) :
  let tm' := edit_task tm i title' priority' estimated in
  let t' := mkTask (id t) (default (title t) title') (default (priority t) priority')
                   (default (estimated_pomodoros t) estimated)
                   (completed_pomodoros t) (completed t) (created_at t) in
  get_task tm' i = Some t' /\
  (forall j, j <> i -> get_task tm' j = get_task tm j) /\
  next_id tm' = next_id tm /\
  active_task_id tm' = active_task_id tm /\
  tasks (edit_task tm i None None None) = tasks tm.
Proof.
  intros tm' t'. subst tm'. unfold edit_task. rewrite Hfound.
  unfold get_task in *. simpl.
  split; [| split; [| split; [| split]]]; try reflexivity.
  - rewrite find_task_mutate by apply apply_edit_id.
    rewrite Z.eqb_refl, Hfound. simpl. f_equal. subst t'.
    destruct t, title', priority', estimated; reflexivity.
  - intros j Hj. rewrite find_task_mutate by apply apply_edit_id.
    destruct (Z.eqb_spec j i); [congruence | reflexivity].
  - apply mutate_task_same. intros x. now destruct x.
Qed.

(** Task 1 gets a new title and estimate and keeps its priority. *)
Lemma edit_then_get_witness :
  let tm := (run (init None) [OpAdd "draft" "High" 1 "t1"; OpIncrement 1]).1 in
  get_task (edit_task tm 1 (Some "final"%string) None (Some 4)) 1
    = Some (mkTask 1 "final" "High" 4 1 false "t1").
Proof.
  intros tm.
  exact (proj1 (edit_then_get tm 1 (mkTask 1 "draft" "High" 1 1 false "t1")
                  (Some "final"%string) None (Some 4) eq_refl)).
Defined.

End StoreLookups.

(** ** The store over its life *)

Section StoreLife.

Import Tasks Store.

Lemma unique_ids_fmap (tm : TaskManager) :
  unique_ids tm <->
  NoDup (id <$> tasks tm) /\ 1 <= next_id tm /\
  Forall (fun i => 1 <= i < next_id tm) (id <$> tasks tm).
Proof.
  unfold unique_ids. rewrite Forall_fmap, Forall_forall. reflexivity.
Qed.

Lemma NoDup_filter_ids (p : Z -> bool) (l : list Z) : NoDup l -> NoDup (List.filter p l).
Proof.
  induction 1 as [| x l Hx Hnd IH]; simpl; [constructor |].
  destruct (p x); [| exact IH].
  constructor; [| exact IH].
  intros Hin. apply Hx. apply list_elem_of_In, filter_In in Hin as [Hin _].
  now apply list_elem_of_In.
Qed.

Lemma step_unique_ids (tm : TaskManager) (op : Op) :
  unique_ids tm -> unique_ids (step tm op).1.
Proof.
  rewrite !unique_ids_fmap. intros (Hnd & H1 & Hb).
  destruct (step_next_id tm op) as [_ Hn]. rewrite step_ids.
  assert (H1' : 1 <= next_id (step tm op).1)
    by (rewrite Hn; destruct (is_add op); lia).
  assert (Hb' : Forall (fun i => 1 <= i < next_id (step tm op).1) (id <$> tasks tm)).
  { eapply Forall_impl; [exact Hb |]. simpl. intros i Hi. rewrite Hn.
    destruct (is_add op); lia. }
  destruct op; try (split; [| split]; assumption).
  - split; [| split; [assumption |]].
    + apply NoDup_app. split; [exact Hnd | split; [| apply NoDup_singleton]].
      intros i Hi Hi'. apply list_elem_of_singleton in Hi'. subst i.
      rewrite Forall_forall in Hb. specialize (Hb _ Hi). lia.
    + apply Forall_app. split; [exact Hb' |].
      constructor; [| constructor]. rewrite Hn. simpl. lia.
  - split; [now apply NoDup_filter_ids | split; [assumption |]].
    apply Forall_forall. intros x Hx. apply list_elem_of_In, filter_In in Hx as [Hx _].
    rewrite Forall_forall in Hb'. apply Hb'. now apply list_elem_of_In.
Qed.

Lemma run_unique_ids (ops : list Op) (tm : TaskManager) :
  unique_ids tm -> unique_ids (run tm ops).1.
Proof.
  revert tm. induction ops as [| op ops IH]; intros tm H; [exact H |].
  rewrite run_cons. simpl. apply IH, step_unique_ids, H.
Qed.

(** X12. The new store has no two tasks of one id, and no operation
    breaks this: after any run of operations the ids of the list are all
    different, at least 1 and below the counter. In such a store the
    active reference, when it is the id of a listed task, is resolved by
    [get_active_task] to that task: the test that treats the id 0 as no
    reference never meets a task. *)
Theorem store_keeps_unique_ids (ops : list Op) (tm : TaskManager)
    (Hu : unique_ids tm) :
  unique_ids (init None) /\
  unique_ids (run tm ops).1 /\
  (forall a, active_task_id tm = Some a -> active_ok tm ->
             exists t, get_active_task tm = Some t /\ id t = a /\ t ∈ tasks tm).
Proof.
  split; [| split; [now apply run_unique_ids |]].
  - split; [constructor | split; [reflexivity |]]. intros t Ht. inversion Ht.
  - intros a Ha Hok. unfold active_ok in Hok. rewrite Ha in Hok.
    destruct Hok as (t0 & Ht0 & Hid). destruct Hu as (_ & _ & Hb).
    unfold get_active_task. rewrite Ha.
    destruct (Z.eqb_spec a 0) as [E0 | E0]; [specialize (Hb t0 Ht0); lia |].
    destruct (get_task tm a) as [t |] eqn:Eg.
    + apply find_task_Some in Eg as [Hin Hida]. exists t. auto.
    + exfalso. unfold get_task in Eg. rewrite find_task_None in Eg.
      now apply (Eg t0 Ht0).
Qed.

(** Three tasks are added, the second is made active and the first
    deleted. *)
Lemma store_keeps_unique_ids_witness :
  let tm := (run (init None)
               [OpAdd "first" "High" 1 "t1"; OpAdd "second" "Low" 1 "t2";
                OpAdd "third" "Medium" 1 "t3"; OpSetActive (Some 2); OpDelete 1]).1 in
  unique_ids tm /\ get_active_task tm = Some (mkTask 2 "second" "Low" 1 0 false "t2").
Proof.
  intros tm.
  assert (H0 : unique_ids (init None)).
  { split; [constructor | split; [reflexivity |]]. intros t Ht. inversion Ht. }
  split; [exact (proj1 (proj2 (store_keeps_unique_ids _ (init None) H0))) |].
  reflexivity.
Defined.

Lemma dated_Forall (tm : TaskManager) :
  dated tm <-> Forall (fun t => created_at t <> EmptyString) (tasks tm).
Proof. unfold dated. now rewrite Forall_forall. Qed.

Lemma Forall_mutate_task (P : Task -> Prop) (l : list Task) (i : Z) (f : Task -> Task) :
  (forall t, P t -> P (f t)) -> Forall P l -> Forall P (mutate_task l i f).
Proof.
  intros Hf. induction 1 as [| x l Hx Hl IH]; simpl; [constructor |].
  destruct (id x =? i); constructor; auto.
Qed.

Lemma step_dated (tm : TaskManager) (op : Op) :
  stamped op -> dated tm -> dated (step tm op).1.
Proof.
  rewrite !dated_Forall. intros Hop Hd.
  destruct op as [t p e n | x | i | i | i t p e | i]; simpl.
  - apply Forall_app. split; [exact Hd |]. constructor; [| constructor].
    simpl in Hop. unfold post_init. simpl. exact Hop.
  - exact Hd.
  - unfold complete_task. destruct (get_task tm i); [| exact Hd].
    simpl. now apply Forall_mutate_task.
  - apply Forall_forall. intros x Hx.
    apply list_elem_of_In, filter_In in Hx as [Hx _].
    rewrite Forall_forall in Hd. apply Hd. now apply list_elem_of_In.
  - unfold edit_task. destruct (get_task tm i); [| exact Hd].
    simpl. apply Forall_mutate_task; [| exact Hd].
    intros x Hx. now destruct t, p, e.
  - unfold increment_task_pomodoro. destruct (get_task tm i); [| exact Hd].
    simpl. now apply Forall_mutate_task.
Qed.

Lemma step_file_current (tm : TaskManager) (op : Op) :
  file_current tm -> file_current (step tm op).1.
Proof.
  intros Hf.
  destruct op as [t p e n | x | i | i | i t p e | i]; simpl;
    try (left; reflexivity).
  - unfold complete_task. destruct (get_task tm i); [left; reflexivity | exact Hf].
  - unfold edit_task. destruct (get_task tm i); [left; reflexivity | exact Hf].
  - unfold increment_task_pomodoro.
    destruct (get_task tm i); [left; reflexivity | exact Hf].
Qed.

Lemma run_file_current (ops : list Op) (tm : TaskManager) :
  Forall stamped ops -> dated tm -> file_current tm ->
  dated (run tm ops).1 /\ file_current (run tm ops).1.
Proof.
  revert tm. induction ops as [| op ops IH]; intros tm Hs Hd Hf; [now split |].
  apply Forall_cons in Hs as [Hop Hs]. rewrite run_cons. simpl.
  apply IH; [exact Hs | now apply step_dated | now apply step_file_current].
Qed.

Lemma post_init_dated (l : list Task) (now_iso : string) :
  Forall (fun t => created_at t <> EmptyString) l ->
  (fun t => post_init t now_iso) <$> l = l.
Proof.
  induction 1 as [| x l Hx Hl IH]; [reflexivity |].
  rewrite fmap_cons, IH. f_equal. unfold post_init.
  destruct (String.eqb_spec (created_at x) EmptyString); [contradiction | reflexivity].
Qed.

(** X13. Whatever operations were run on a store that started with no
    file, a new [TaskManager] loading the file left behind has the same
    list of tasks, the same counter and the same active reference: the
    operations that change the object all save it, and the stamps, never
    empty, are not replaced on loading. *)
Theorem restart_restores_store (ops : list Op) (now_iso : string)
    (Hstamps : Forall stamped ops) :
  let tm := (run (init None) ops).1 in
  reload (TASKS_FILE tm) now_iso = tm.
Proof.
  intros tm.
  destruct (run_file_current ops (init None) Hstamps) as [Hd Hf].
  { intros t Ht. inversion Ht. }
  { right. reflexivity. }
  fold tm in Hd, Hf. destruct Hf as [Hf | Hf].
  - rewrite Hf. unfold reload, init, load_tasks. simpl.
    rewrite dated_Forall in Hd.
    rewrite (post_init_dated _ now_iso Hd), <- Hf. now destruct tm.
  - rewrite Hf. reflexivity.
Qed.

(** Two tasks added, one made active and completed, one deleted, then
    the program is started again. *)
Lemma restart_restores_store_witness :
  let ops := [OpAdd "first" "High" 1 "2024-05-01T09:00:00";
              OpAdd "second" "Low" 2 "2024-05-01T09:05:00";
              OpSetActive (Some 2); OpComplete 2; OpDelete 1; OpIncrement 9] in
  reload (TASKS_FILE (run (init None) ops).1) "2024-05-02T08:00:00"
    = (run (init None) ops).1.
Proof.
  intros ops. apply restart_restores_store.
  repeat constructor; discriminate.
Defined.

(** X26. A file that cannot be read does not stop [__init__], and what
    the [try] block had assigned before the failure stays: with a file
    that [json.load] refuses the store is the empty one; with a record
    that [Task] refuses the list is empty but the counter and the active
    reference are those of the file, the counter being 1 when the file
    has none; a dump is loaded whole, a task without a stamp being
    stamped at the clock of the load. *)
Theorem load_failure_is_partial (next active : option Z) (f : TaskFile)
    (now_iso : string) :
  init (Some (NotJson, now_iso)) = mkTaskManager [] 1 None (Some NotJson) /\
  init (Some (BadRecord next active, now_iso))
    = mkTaskManager [] (default 1 next) active (Some (BadRecord next active)) /\
  tasks (init (Some (Dumped f, now_iso)))
    = (fun t => post_init t now_iso) <$> file_tasks f /\
  next_id (init (Some (Dumped f, now_iso))) = file_next_id f /\
  active_task_id (init (Some (Dumped f, now_iso))) = file_active_task_id f /\
  (forall t, created_at t = EmptyString -> created_at (post_init t now_iso) = now_iso) /\
  (forall t, created_at t <> EmptyString -> post_init t now_iso = t).
Proof.
  repeat split.
  - intros t E. unfold post_init. rewrite E. reflexivity.
  - intros t E. unfold post_init.
    destruct (String.eqb_spec (created_at t) EmptyString); [contradiction | reflexivity].
Qed.

(** A file with the counter 7, the reference 3 and a record without a
    title; and a dump of one task that has no stamp. *)
Lemma load_failure_is_partial_witness :
  let draft := mkTask 1 "draft" "High" 2 0 false EmptyString in
  next_id (init (Some (BadRecord (Some 7) (Some 3), "2024-05-02T08:00:00"))) = 7 /\
  tasks (init (Some (BadRecord (Some 7) (Some 3), "2024-05-02T08:00:00"))) = [] /\
  tasks (init (Some (Dumped (mkTaskFile 2 None [draft]), "2024-05-02T08:00:00")))
    = [mkTask 1 "draft" "High" 2 0 false "2024-05-02T08:00:00"].
Proof.
  intros draft.
  destruct (load_failure_is_partial (Some 7) (Some 3) (mkTaskFile 2 None [draft])
              "2024-05-02T08:00:00") as (_ & Hbad & Htasks & _).
  split; [now rewrite Hbad | split; [now rewrite Hbad |]].
  rewrite Htasks. reflexivity.
Defined.

End StoreLife.

(** ** The statistics log over a run *)

Section StatsLogFacts.

Import Stats StatsLog.

Lemma record_pomodoro_total (st : Statistics) (d t day : string) :
  total_pomodoros (get_today_stats (record_pomodoro st d t) day)
  = total_pomodoros (get_today_stats st day) + (if bool_decide (d = day) then 1 else 0).
Proof.
  unfold get_today_stats at 1. rewrite record_pomodoro_stats.
  case_bool_decide as E.
  - subst day. rewrite lookup_insert_eq. reflexivity.
  - rewrite lookup_insert_ne by exact E. unfold get_today_stats. lia.
Qed.

Lemma record_pomodoro_counter (st : Statistics) (d t day title : string) :
  counter (record_pomodoro st d t) day title
  = counter st day title + (if bool_decide ((d, t) = (day, title)) then 1 else 0).
Proof.
  unfold counter. unfold get_today_stats at 1. rewrite record_pomodoro_stats.
  destruct (decide (d = day)) as [-> | Ed].
  - rewrite lookup_insert_eq. simpl.
    destruct (decide (t = title)) as [-> | Et].
    + rewrite lookup_insert_eq, bool_decide_eq_true_2 by reflexivity. reflexivity.
    + rewrite lookup_insert_ne by exact Et.
      rewrite bool_decide_eq_false_2 by congruence. lia.
  - rewrite lookup_insert_ne by exact Ed.
    rewrite bool_decide_eq_false_2 by congruence. unfold get_today_stats. lia.
Qed.

Lemma record_pomodoro_keeps_days (st : Statistics) (d t day : string) :
  is_Some (stats st !! day) -> is_Some (stats (record_pomodoro st d t) !! day).
Proof.
  intros H. rewrite record_pomodoro_stats.
  destruct (decide (d = day)) as [-> | E].
  - rewrite lookup_insert_eq. eauto.
  - now rewrite lookup_insert_ne.
Qed.

Lemma record_all_snoc (st : Statistics) (events : list (string * string)) (e : string * string) :
  record_all st (events ++ [e]) = record_pomodoro (record_all st events) e.1 e.2.
Proof. unfold record_all. now rewrite foldl_app. Qed.

(** X14. After any run of [record_pomodoro] calls, the total of a date
    has grown by the number of calls made on that date and the counter of
    a title on a date by the number of calls made on that date for that
    title; no date's entry is ever removed, and after the last call the
    file holds the dictionary. *)
Theorem record_all_counts (events : list (string * string)) (st : Statistics)
    (day title : string) :
  let st' := record_all st events in
  total_pomodoros (get_today_stats st' day)
    = total_pomodoros (get_today_stats st day) + on_day day events /\
  counter st' day title = counter st day title + on_day_for day title events /\
  (is_Some (stats st !! day) -> is_Some (stats st' !! day)) /\
  (events <> [] -> STATS_FILE st' = Some (stats st')).
Proof.
  induction events as [| e events IH] using rev_ind.
  - simpl. unfold on_day, on_day_for. simpl.
    split; [lia | split; [lia | split; [auto | congruence]]].
  - cbv zeta in *. rewrite record_all_snoc.
    destruct IH as (IHt & IHc & IHd & _).
    rewrite record_pomodoro_total, record_pomodoro_counter, IHt, IHc.
    unfold on_day, on_day_for. rewrite !filter_app, !length_app.
    rewrite !filter_cons, !filter_nil. destruct e as [d t]. simpl.
    split; [| split; [| split]].
    + case_bool_decide; case_decide; try contradiction; simpl; lia.
    + case_bool_decide; case_decide; try contradiction; simpl; lia.
    + intros H. now apply record_pomodoro_keeps_days, IHd.
    + intros _. reflexivity.
Qed.

Lemma sum_counters_insert (m : gmap string Z) (t : string) (v : Z) :
  map_fold (fun _ c acc => c + acc) 0 (<[t := v]> m)
  = map_fold (fun _ c acc => c + acc) 0 m - default 0 (m !! t) + v.
Proof.
  destruct (m !! t) as [c |] eqn:E; simpl.
  - rewrite <- insert_delete_eq.
    rewrite map_fold_insert_L; [| intros; lia | apply lookup_delete_eq].
    rewrite (map_fold_delete_L _ _ t c m); [lia | intros; lia | exact E].
  - rewrite map_fold_insert_L; [lia | intros; lia | exact E].
Qed.

Lemma balanced_init : balanced init.
Proof.
  intros day d H. change (stats init) with (∅ : gmap string DayStats) in H.
  rewrite lookup_empty in H. discriminate H.
Qed.

(** X15. In the new log, and after every [record_pomodoro] on a log where
    it holds, the total of each date is the sum of the date's counters:
    the two numbers that [render_stats] shows never disagree. *)
Theorem totals_stay_balanced (st : Statistics) (today task_title : string)
    (Hb : balanced st) :
  balanced init /\ balanced (record_pomodoro st today task_title).
Proof.
  split; [exact balanced_init |].
  intros day d. rewrite record_pomodoro_stats.
  destruct (decide (today = day)) as [-> | E].
  - rewrite lookup_insert_eq. intros [= <-]. unfold sum_counters. simpl.
    rewrite sum_counters_insert.
    assert (H0 : total_pomodoros (get_today_stats st day)
                 = sum_counters (get_today_stats st day)).
    { unfold get_today_stats. destruct (stats st !! day) as [d0 |] eqn:E0; simpl.
      - now apply (Hb day).
      - reflexivity. }
    unfold sum_counters in H0. lia.
  - rewrite lookup_insert_ne by exact E. apply Hb.
Qed.

(** Two titles recorded on one day. *)
Lemma totals_stay_balanced_witness :
  balanced (record_pomodoro (record_pomodoro init "2024-05-01" "Write report")
              "2024-05-01" "No task").
Proof.
  pose proof balanced_init as H0.
  pose proof (proj2 (totals_stay_balanced init "2024-05-01" "Write report" H0)) as H1.
  exact (proj2 (totals_stay_balanced _ "2024-05-01" "No task" H1)).
Defined.

End StatsLogFacts.

(** ** The handler and the keys in the loop *)

Section LoopFacts.

Variable ui : App.Console.

Lemma get_active_task_Some (tm : Tasks.TaskManager) (t : Tasks.Task) :
  Tasks.get_active_task tm = Some t ->
  Tasks.get_task tm (Tasks.id t) = Some t /\ Tasks.active_task_id tm = Some (Tasks.id t).
Proof.
  unfold Tasks.get_active_task.
  destruct (Tasks.active_task_id tm) as [a |]; [| discriminate].
  destruct (a =? 0); [discriminate |]. intros H.
  destruct (find_task_Some _ _ _ H) as [_ <-]. now split.
Qed.

(** X16. Called while the timer is on Work with an active task that is
    found, the completion handler rings the completion bell, adds one to
    that task's completed pomodoros, to today's total and to today's
    counter of the task's title, and changes nothing else: the other
    tasks, the active reference, the timer and the flags of the loop. *)
Theorem handler_credits_active_task (a : App.PomodoroApp) (today : string)
    (t : Tasks.Task)
    (Hwork : Timer.session_type (App.timer a) = Timer.WORK)
    (Hactive : Tasks.get_active_task (App.task_manager a) = Some t) :
  let a' := App.on_session_complete a today in
  Tasks.get_task (App.task_manager a') (Tasks.id t)
    = Some (Tasks.set_completed_pomodoros (Tasks.completed_pomodoros t + 1) t) /\
  (forall j, j <> Tasks.id t ->
     Tasks.get_task (App.task_manager a') j = Tasks.get_task (App.task_manager a) j) /\
  Tasks.active_task_id (App.task_manager a') = Tasks.active_task_id (App.task_manager a) /\
  Stats.total_pomodoros (Stats.get_today_stats (App.stats a') today)
    = Stats.total_pomodoros (Stats.get_today_stats (App.stats a) today) + 1 /\
  StatsLog.counter (App.stats a') today (Tasks.title t)
    = StatsLog.counter (App.stats a) today (Tasks.title t) + 1 /\
  App.bells a' = App.bells a ++ [BellCompletion] /\
  App.timer a' = App.timer a /\
  App.running a' = App.running a /\ App.show_help a' = App.show_help a.
Proof.
  intros a'. subst a'. rewrite (on_session_complete_work a today Hwork).
  cbv zeta. rewrite Hactive. simpl.
  destruct (get_active_task_Some _ _ Hactive) as [Hget _].
  unfold Tasks.increment_task_pomodoro. rewrite Hget.
  unfold Tasks.get_task in *. simpl.
  split; [| split; [| split; [| split; [| split]]]]; try (repeat split; reflexivity).
  - rewrite find_task_mutate by reflexivity. now rewrite Z.eqb_refl, Hget.
  - intros j Hj. rewrite find_task_mutate by reflexivity.
    destruct (Z.eqb_spec j (Tasks.id t)); [congruence | reflexivity].
  - rewrite record_pomodoro_total, bool_decide_eq_true_2 by reflexivity. reflexivity.
  - rewrite record_pomodoro_counter, bool_decide_eq_true_2 by reflexivity. reflexivity.
Qed.

(** The handler is called on a work session with task 1 active. *)
Lemma handler_credits_active_task_witness :
  let tm := (Tasks.run (Tasks.init None)
               [Tasks.OpAdd "Write report" "High" 2 "t1"; Tasks.OpSetActive (Some 1)]).1 in
  let a := App.set_task_manager tm (App.init None) in
  Tasks.get_task (App.task_manager (App.on_session_complete a "2024-05-01")) 1
    = Some (Tasks.mkTask 1 "Write report" "High" 2 1 false "t1").
Proof.
  intros tm a.
  exact (proj1 (handler_credits_active_task a "2024-05-01"
                  (Tasks.mkTask 1 "Write report" "High" 2 0 false "t1") eq_refl eq_refl)).
Defined.

(** X17. [get_active_task] finds no task exactly when the active
    reference is unset, is 0, or is the id of no listed task. The handler
    called on Work then leaves the store untouched and counts the
    pomodoro under "No task"; called on a break it only rings the bell. *)
Theorem handler_without_active_task (a : App.PomodoroApp) (today : string) :
  let tm := App.task_manager a in
  let a' := App.on_session_complete a today in
  (Tasks.get_active_task tm = None <->
     Tasks.active_task_id tm = None \/ Tasks.active_task_id tm = Some 0 \/
     exists i, Tasks.active_task_id tm = Some i /\
               forall t, t ∈ Tasks.tasks tm -> Tasks.id t <> i) /\
  (Timer.session_type (App.timer a) = Timer.WORK ->
   Tasks.get_active_task tm = None ->
     App.task_manager a' = tm /\
     StatsLog.counter (App.stats a') today "No task"
       = StatsLog.counter (App.stats a) today "No task" + 1 /\
     Stats.total_pomodoros (Stats.get_today_stats (App.stats a') today)
       = Stats.total_pomodoros (Stats.get_today_stats (App.stats a) today) + 1) /\
  (Timer.session_type (App.timer a) <> Timer.WORK ->
     a' = App.play_bell play_completion_sound a).
Proof.
  intros tm a'. split; [| split].
  - unfold Tasks.get_active_task, Tasks.get_task.
    destruct (Tasks.active_task_id tm) as [i |]; [| split; auto].
    destruct (Z.eqb_spec i 0) as [E0 | E0].
    + subst i. split; auto.
    + rewrite find_task_None. split.
      * intros H. right. right. exists i. auto.
      * intros [H | [H | (j & [= <-] & H)]]; [discriminate | congruence | exact H].
  - intros Hwork Hnone. subst a'. rewrite (on_session_complete_work a today Hwork).
    cbv zeta. fold tm. rewrite Hnone. simpl.
    split; [reflexivity | split].
    + rewrite record_pomodoro_counter, bool_decide_eq_true_2 by reflexivity. reflexivity.
    + rewrite record_pomodoro_total, bool_decide_eq_true_2 by reflexivity. reflexivity.
  - intros Hbreak. now apply on_session_complete_break.
Qed.

(** X18. With the help panel closed, a loop turn that reads the key [q]
    leaves the running flag down, and the loop stops there: whatever
    turns would follow, the program ends in the state of that turn. *)
Theorem quit_ends_run (a a' : App.PomodoroApp) (i : App.Tick) (rest : list App.Tick)
    (Hrunning : App.running a = true) (Hhelp : App.show_help a = false)
    (Hkey : App.key i = Some "q"%char) (Hturn : App.tick ui a i = Ok a') :
  App.running a' = false /\ App.run ui a (i :: rest) = Ok a'.
Proof.
  assert (Hq : App.running a' = false).
  { unfold App.tick in Hturn. rewrite Hkey in Hturn.
    destruct (Timer.update (App.timer a) (App.at_update i)) as [[t completed] | e];
      [| discriminate]. simpl in Hturn.
    unfold App.handle_input in Hturn.
    assert (Hh : App.show_help
                   (if completed
                    then App.on_session_complete (App.set_timer t a) (App.today i)
                    else App.set_timer t a) = false).
    { destruct completed; [| exact Hhelp].
      unfold App.on_session_complete. simpl.
      destruct (Timer.SessionType_eqb _ _); [| exact Hhelp].
      destruct (Tasks.get_active_task _); exact Hhelp. }
    rewrite Hh in Hturn. simpl in Hturn. injection Hturn as <-. reflexivity. }
  split; [exact Hq |].
  simpl. rewrite Hrunning, Hturn. simpl.
  destruct rest; simpl; [reflexivity | now rewrite Hq].
Qed.

End LoopFacts.

(** The new program reads [q] in its first turn. *)
Lemma quit_ends_run_witness :
  App.run (App.mkConsole Ok Ok Ok Ok) (App.init None)
    [App.mkTick 0 "2024-05-01" (Some "q"%char) 0;
     App.mkTick 1 "2024-05-01" (Some "s"%char) 1]
  = Ok (App.set_running false (App.init None)).
Proof.
  exact (proj2 (quit_ends_run (App.mkConsole Ok Ok Ok Ok) (App.init None)
                  (App.set_running false (App.init None))
                  (App.mkTick 0 "2024-05-01" (Some "q"%char) 0)
                  [App.mkTick 1 "2024-05-01" (Some "s"%char) 1]
                  eq_refl eq_refl eq_refl eq_refl)).
Defined.


Section KeyFacts.

Variable ui : App.Console.

Lemma set_show_help_back (a : App.PomodoroApp) :
  App.show_help a = false -> App.set_show_help false (App.set_show_help true a) = a.
Proof. destruct a. simpl. now intros ->. Qed.

(** X19. With the panel closed, [?] opens the help panel and changes
    nothing else; the next key, whichever it is, only closes the panel:
    the application is back in the state it had, and the key's own
    command (quit, skip, a dialog, a selection) is not run. *)
Theorem help_swallows_next_key (a : App.PomodoroApp) (key : ascii) (now now' : Q)
    (Hclosed : App.show_help a = false) :
  App.handle_input ui a "?" now = Ok (App.set_show_help true a) /\
  App.handle_input ui (App.set_show_help true a) key now' = Ok a.
Proof.
  split.
  - unfold App.handle_input. rewrite Hclosed. reflexivity.
  - unfold App.handle_input. simpl. f_equal. now apply set_show_help_back.
Qed.

Lemma not_command (key : ascii) :
  Keys.is_command key = false ->
  Ascii.eqb key "q" = false /\ Ascii.eqb key "?" = false /\
  Ascii.eqb key "s" = false /\ Ascii.eqb key "k" = false /\
  Ascii.eqb key "a" = false /\ Ascii.eqb key "e" = false /\
  Ascii.eqb key "c" = false /\ Ascii.eqb key "d" = false /\
  App.isdigit key && App.in_1_9 key = false.
Proof.
  destruct key as [[] [] [] [] [] [] [] []]; vm_compute; intros H;
    first [discriminate H | repeat split].
Qed.

(** X20. With the panel closed, a character that is not one of
    q ? s k a e c d 1 ... 9 leaves the application as it is: the commands
    are case sensitive, and 0 is no selection key. *)
Theorem other_keys_do_nothing (a : App.PomodoroApp) (key : ascii) (now : Q)
    (Hclosed : App.show_help a = false) (Hother : Keys.is_command key = false) :
  App.handle_input ui a key now = Ok a.
Proof.
  destruct (not_command key Hother) as (Hq & Hh & Hs & Hk & Ha & He & Hc & Hd & Hn).
  unfold App.handle_input.
  rewrite Hclosed, Hq, Hh, Hs, Hk, Ha, He, Hc, Hd, Hn. reflexivity.
Qed.

Lemma set_timer_same (a : App.PomodoroApp) : App.set_timer (App.timer a) a = a.
Proof. now destruct a. Qed.

(** X21. While the timer is not running, turns of the loop that read no
    key change nothing, however many they are and whatever the clock
    shows: a stopped or paused timer never completes by itself. *)
Theorem idle_turns_change_nothing (a : App.PomodoroApp) (turns : list App.Tick)
    (Hidle : Timer.state (App.timer a) <> Timer.RUNNING)
    (Hkeys : Forall (fun i => App.key i = None) turns) :
  App.run ui a turns = Ok a.
Proof.
  induction Hkeys as [| i turns Hi Hturns IH]; [reflexivity |].
  simpl. destruct (App.running a); [| reflexivity].
  unfold App.tick. rewrite (update_not_running _ _ Hidle). simpl.
  rewrite Hi, set_timer_same. simpl. exact IH.
Qed.

End KeyFacts.

(** An upper-case S, a zero and a blank are read by the new program. *)
Lemma other_keys_do_nothing_witness :
  let ui := App.mkConsole Ok Ok Ok Ok in
  App.handle_input ui (App.init None) "S" 0 = Ok (App.init None) /\
  App.handle_input ui (App.init None) "0" 0 = Ok (App.init None) /\
  App.handle_input ui (App.init None) " " 0 = Ok (App.init None).
Proof.
  intros ui.
  exact (conj (other_keys_do_nothing ui (App.init None) "S" 0 eq_refl eq_refl)
           (conj (other_keys_do_nothing ui (App.init None) "0" 0 eq_refl eq_refl)
                 (other_keys_do_nothing ui (App.init None) " " 0 eq_refl eq_refl))).
Defined.

(** Help is opened on the new program, and [q] is pressed. *)
Lemma help_swallows_next_key_witness :
  let ui := App.mkConsole Ok Ok Ok Ok in
  App.handle_input ui (App.set_show_help true (App.init None)) "q" 1 = Ok (App.init None).
Proof.
  intros ui.
  exact (proj2 (help_swallows_next_key ui (App.init None) "q" 0 1 eq_refl)).
Defined.

(** A session paused at clock 60 is left alone for an hour. *)
Lemma idle_turns_change_nothing_witness :
  let ui := App.mkConsole Ok Ok Ok Ok in
  let a := App.set_timer
             (Timer.mkTimer Timer.PAUSED Timer.WORK 1440 1500 0 (Some 0%Q) 60%Q)
             (App.init None) in
  App.run ui a [App.mkTick 61 "2024-05-01" None 0; App.mkTick 3660 "2024-05-01" None 0]
    = Ok a.
Proof.
  intros ui a. apply (idle_turns_change_nothing ui a).
  - discriminate.
  - repeat constructor.
Defined.

(** ** The prompt dialogs *)

Section PromptFacts.

Import Prompts.

Lemma is_empty_spec (s : string) : is_empty s = true <-> s = EmptyString.
Proof. unfold is_empty. apply String.eqb_eq. Qed.

Lemma priority_map_known (s p : string) : priority_map s = Some p -> known_priority p.
Proof.
  unfold priority_map, known_priority.
  repeat (destruct (String.eqb _ _);
          [intros [= <-];
           first [now left | now (right; left) | now (right; right)] |]).
  discriminate.
Qed.

Variable int_of_str : string -> option Z.

(** X22. The add dialog never raises. With an empty title it changes
    nothing; otherwise it appends one task with the title typed, the next
    id, and a priority that is always High, Medium or Low: High for the
    choice 1, Low for 3 and Medium for anything else. The estimate is the
    number typed, and 1 when nothing or no number is typed. *)
Theorem add_dialog (now_iso : string) (typed : Typed) (a : App.PomodoroApp) :
  let tm := App.task_manager a in
  let r := add_task_interactive int_of_str now_iso typed a in
  (typed_title typed = EmptyString -> r = Ok a) /\
  (typed_title typed <> EmptyString ->
   exists task,
     r = Ok (App.set_task_manager
               (Tasks.save_tasks
                  (Tasks.mkTaskManager (Tasks.tasks tm ++ [task]) (Tasks.next_id tm + 1)
                     (Tasks.active_task_id tm) (Tasks.TASKS_FILE tm))) a) /\
     Tasks.id task = Tasks.next_id tm /\
     Tasks.title task = typed_title typed /\
     known_priority (Tasks.priority task) /\
     (Tasks.priority task = "High"%string <-> typed_priority typed = "1"%string) /\
     (Tasks.priority task = "Low"%string <-> typed_priority typed = "3"%string) /\
     Tasks.estimated_pomodoros task =
       (if is_empty (typed_estimated typed) then 1
        else default 1 (int_of_str (typed_estimated typed))) /\
     Tasks.completed task = false /\ Tasks.completed_pomodoros task = 0).
Proof.
  intros tm r. subst r. unfold add_task_interactive. split.
  - intros E. rewrite (proj2 (is_empty_spec _) E). reflexivity.
  - intros E. destruct (is_empty (typed_title typed)) eqn:Ee;
      [apply is_empty_spec in Ee; contradiction |].
    eexists. split; [reflexivity |]. simpl.
    split; [reflexivity | split; [reflexivity |]].
    split; [| split; [| split; [| split; [| split]]]]; try reflexivity.
    + destruct (priority_map (typed_priority typed)) as [p |] eqn:Ep; simpl.
      * now apply (priority_map_known _ _ Ep).
      * right. now left.
    + unfold priority_map.
      destruct (String.eqb_spec (typed_priority typed) "1") as [E1 | E1]; simpl.
      * split; intros _; [exact E1 | reflexivity].
      * destruct (String.eqb (typed_priority typed) "2"); simpl;
          [| destruct (String.eqb (typed_priority typed) "3"); simpl];
          split; intros H; first [discriminate H | contradiction].
    + unfold priority_map.
      destruct (String.eqb_spec (typed_priority typed) "1") as [E1 | E1]; simpl.
      * rewrite E1. split; discriminate.
      * destruct (String.eqb_spec (typed_priority typed) "2") as [E2 | E2]; simpl.
        -- rewrite E2. split; discriminate.
        -- destruct (String.eqb_spec (typed_priority typed) "3") as [E3 | E3]; simpl;
             split; intros H; first [assumption | reflexivity | discriminate H | contradiction].
Qed.

Lemma find_task_edit (tm : Tasks.TaskManager) (i : Z) (t : Tasks.Task)
    (title' priority' : option string) (estimated : option Z) :
  Tasks.get_task tm i = Some t ->
  Tasks.get_task (Tasks.edit_task tm i title' priority' estimated) i
    = Some (Tasks.apply_edit title' priority' estimated t).
Proof.
  intros H. unfold Tasks.edit_task. rewrite H. unfold Tasks.get_task in *. simpl.
  rewrite find_task_mutate by apply apply_edit_id. now rewrite Z.eqb_refl, H.
Qed.

(** X23. The edit dialog changes nothing when the id typed is no number
    or the id of no task. For a task that is found, an estimate typed
    that is no number raises [ValueError] out of the dialog, where the add
    dialog falls back to 1; otherwise the task gets the title typed, or
    keeps its title when none is typed, gets the priority of the choice
    1, 2 or 3, or keeps its priority on any other input, and gets the
    estimate typed, or keeps its estimate when none is typed. *)
Theorem edit_dialog (typed : Typed) (a : App.PomodoroApp) :
  let tm := App.task_manager a in
  let r := edit_task_interactive int_of_str typed a in
  (int_of_str (typed_id typed) = None -> r = Ok a) /\
  (forall i, int_of_str (typed_id typed) = Some i ->
     match Tasks.get_task tm i with
     | None => r = Ok a
     | Some t =>
         if is_empty (typed_estimated typed) then
           exists a', r = Ok a' /\
             Tasks.get_task (App.task_manager a') i =
               Some (Tasks.mkTask (Tasks.id t)
                       (if is_empty (typed_title typed) then Tasks.title t
                        else typed_title typed)
                       (default (Tasks.priority t) (priority_map (typed_priority typed)))
                       (Tasks.estimated_pomodoros t)
                       (Tasks.completed_pomodoros t) (Tasks.completed t)
                       (Tasks.created_at t))
         else
           match int_of_str (typed_estimated typed) with
           | None => r = Raise ValueError
           | Some n =>
               exists a', r = Ok a' /\
                 Tasks.get_task (App.task_manager a') i =
                   Some (Tasks.mkTask (Tasks.id t)
                           (if is_empty (typed_title typed) then Tasks.title t
                            else typed_title typed)
                           (default (Tasks.priority t) (priority_map (typed_priority typed)))
                           n (Tasks.completed_pomodoros t) (Tasks.completed t)
                           (Tasks.created_at t))
           end
     end).
Proof.
  intros tm r. subst r. unfold edit_task_interactive. split.
  - intros ->. reflexivity.
  - intros i ->. fold tm. destruct (Tasks.get_task tm i) as [t |] eqn:Eg; [| reflexivity].
    assert (Ep : (if is_empty (typed_priority typed) then None
                  else priority_map (typed_priority typed))
                 = priority_map (typed_priority typed)).
    { destruct (is_empty (typed_priority typed)) eqn:E; [| reflexivity].
      apply is_empty_spec in E. now rewrite E. }
    rewrite Ep.
    destruct (is_empty (typed_estimated typed)); simpl.
    + eexists. split; [reflexivity |]. simpl. rewrite (find_task_edit _ _ _ _ _ _ Eg).
      f_equal. destruct t, (is_empty (typed_title typed)),
        (priority_map (typed_priority typed)); reflexivity.
    + destruct (int_of_str (typed_estimated typed)) as [n |]; simpl; [| reflexivity].
      eexists. split; [reflexivity |]. simpl. rewrite (find_task_edit _ _ _ _ _ _ Eg).
      f_equal. destruct t, (is_empty (typed_title typed)),
        (priority_map (typed_priority typed)); reflexivity.
Qed.

Lemma known_priorities_mutate (l : list Tasks.Task) (i : Z) (f : Tasks.Task -> Tasks.Task) :
  (forall t, known_priority (Tasks.priority t) -> known_priority (Tasks.priority (f t))) ->
  Forall (fun t => known_priority (Tasks.priority t)) l ->
  Forall (fun t => known_priority (Tasks.priority t)) (Tasks.mutate_task l i f).
Proof.
  exact (Forall_mutate_task (fun t => known_priority (Tasks.priority t)) l i f).
Qed.

(** X24. Whatever is typed, none of the four dialogs leaves a task with a
    priority other than High, Medium or Low in a store that had none,
    and the complete and delete dialogs change nothing when the id typed
    is no number. *)
Theorem dialogs_keep_known_priorities (now_iso : string) (typed : Typed)
    (a a' : App.PomodoroApp)
    (Hknown : known_priorities (App.task_manager a)) :
  (add_task_interactive int_of_str now_iso typed a = Ok a' ->
   known_priorities (App.task_manager a')) /\
  (edit_task_interactive int_of_str typed a = Ok a' ->
   known_priorities (App.task_manager a')) /\
  (complete_task_interactive int_of_str typed a = Ok a' ->
   known_priorities (App.task_manager a')) /\
  (delete_task_interactive int_of_str typed a = Ok a' ->
   known_priorities (App.task_manager a')) /\
  (int_of_str (typed_id typed) = None ->
   complete_task_interactive int_of_str typed a = Ok a /\
   delete_task_interactive int_of_str typed a = Ok a).
Proof.
  unfold known_priorities in *.
  split; [| split; [| split; [| split]]].
  - unfold add_task_interactive. destruct (is_empty (typed_title typed)).
    + intros [= <-]. exact Hknown.
    + intros [= <-]. simpl. apply Forall_app. split; [exact Hknown |].
      constructor; [| constructor]. simpl.
      destruct (priority_map (typed_priority typed)) as [p |] eqn:Ep; simpl.
      * now apply (priority_map_known _ _ Ep).
      * right. now left.
  - unfold edit_task_interactive.
    destruct (int_of_str (typed_id typed)) as [i |]; [| intros [= <-]; exact Hknown].
    destruct (Tasks.get_task (App.task_manager a) i) as [t |] eqn:Eg;
      [| intros [= <-]; exact Hknown].
    destruct (if is_empty (typed_estimated typed) then Ok None
              else match int_of_str (typed_estimated typed) with
                   | Some n => Ok (Some n)
                   | None => Raise ValueError
                   end) as [est | e]; simpl; [| discriminate].
    intros [= <-]. simpl. unfold Tasks.edit_task. rewrite Eg. simpl.
    apply known_priorities_mutate; [| exact Hknown].
    intros x Hx.
    destruct (is_empty (typed_title typed)), (is_empty (typed_priority typed)), est;
      simpl; try exact Hx;
      destruct (priority_map (typed_priority typed)) as [p |] eqn:Ep; simpl;
      try exact Hx; now apply (priority_map_known _ _ Ep).
  - unfold complete_task_interactive.
    destruct (int_of_str (typed_id typed)) as [i |]; intros [= <-]; [| exact Hknown].
    simpl. unfold Tasks.complete_task.
    destruct (Tasks.get_task (App.task_manager a) i); [| exact Hknown].
    simpl. now apply known_priorities_mutate.
  - unfold delete_task_interactive.
    destruct (int_of_str (typed_id typed)) as [i |]; intros [= <-]; [| exact Hknown].
    simpl. apply Forall_forall. intros x Hx.
    apply list_elem_of_In, filter_In in Hx as [Hx _].
    rewrite Forall_forall in Hknown. apply Hknown. now apply list_elem_of_In.
  - intros E. unfold complete_task_interactive, delete_task_interactive.
    rewrite E. split; reflexivity.
Qed.

End PromptFacts.

(** A task is added with the choice 7 and the estimate "many", with an
    [int] that reads no string. *)
Lemma dialogs_keep_known_priorities_witness :
  let typed := Prompts.mkTyped "x" "Write report" "7" "many" in
  Prompts.known_priorities
    (App.task_manager
       (App.set_task_manager
          (Tasks.add_task (Tasks.init None) "Write report" "Medium" 1 "t1").2
          (App.init None))).
Proof.
  intros typed.
  refine (proj1 (dialogs_keep_known_priorities (fun _ => None) "t1" typed
                   (App.init None) _ _) eq_refl).
  constructor.
Defined.

(** ** The bells *)

Section SoundFacts.

Import Sound.

(** X25. On every platform the start, pause and completion sounds ring
    one, two and three bells, the last action being a bell and never a
    sleep; when an action of the attempt raises, the terminal bell rings
    the full number again after what was already played. A bell type
    that is none of the three is silent on macOS and rings three times
    elsewhere. *)
Theorem bells_per_sound (platform : string) (b : Bell) (k : nat) :
  let played := _play platform (bell_type b) None in
  chimes played = bells_of b /\
  (exists chime, last played = Some chime /\ is_chime chime = true) /\
  ((k < length played)%nat ->
   _play platform (bell_type b) (Some k) = take k played ++ fallback (bell_type b) /\
   chimes (fallback (bell_type b)) = bells_of b /\
   Forall (fun x => x = TerminalBell \/ x = Sleep (2 # 10)) (fallback (bell_type b))) /\
  (forall other : string,
     bell_count other = 3%nat ->
     other <> "completion"%string ->
     chimes (_play "darwin" other None) = 0%nat /\
     (platform <> "darwin"%string -> chimes (_play platform other None) = 3%nat)).
Proof.
  intros played. subst played. unfold _play.
  split; [| split; [| split]].
  - unfold attempt. destruct (String.eqb platform "darwin");
      [| destruct (String.prefix "linux" platform)]; destruct b; reflexivity.
  - unfold attempt. destruct (String.eqb platform "darwin");
      [| destruct (String.prefix "linux" platform)]; destruct b;
      eexists; split; reflexivity.
  - intros Hk. apply Nat.ltb_lt in Hk. rewrite Hk.
    split; [reflexivity |]. destruct b; (split; [reflexivity |]);
      unfold fallback; simpl;
      repeat (apply List.Forall_cons; [first [now left | now right] |]);
      apply List.Forall_nil.
  - intros other H3 Hc. split.
    + unfold attempt. simpl. unfold bell_count in H3.
      destruct (String.eqb other "start"); [discriminate |].
      destruct (String.eqb other "pause"); [discriminate |].
      destruct (String.eqb_spec other "completion"); [contradiction | reflexivity].
    + intros Hp. unfold attempt.
      destruct (String.eqb_spec platform "darwin"); [contradiction |].
      rewrite H3. destruct (String.prefix "linux" platform); reflexivity.
Qed.

(** The completion sound on Linux, with the second [paplay] failing. *)
Lemma bells_per_sound_witness :
  _play "linux" "completion" (Some 2%nat)
  = [Paplay; Sleep (3 # 10); TerminalBell; Sleep (2 # 10); TerminalBell;
     Sleep (2 # 10); TerminalBell].
Proof.
  refine (proj1 (proj1 (proj2 (proj2 (bells_per_sound "linux" BellCompletion 2))) _)).
  vm_compute. lia.
Defined.

End SoundFacts.

(** Task 1 is edited with the choice 3 and the estimate "soon", with an
    [int] that reads only "1". *)
Lemma edit_dialog_witness :
  let int_of_str := fun s : string => if String.eqb s "1" then Some 1 else None in
  let tm := (Tasks.add_task (Tasks.init None) "Write report" "High" 2 "t1").2 in
  let a := App.set_task_manager tm (App.init None) in
  Prompts.edit_task_interactive int_of_str (Prompts.mkTyped "1" "" "3" "soon") a
    = Raise ValueError /\
  Prompts.edit_task_interactive int_of_str (Prompts.mkTyped "one" "" "3" "soon") a = Ok a.
Proof.
  intros int_of_str tm a. split.
  - exact (proj2 (edit_dialog int_of_str (Prompts.mkTyped "1" "" "3" "soon") a) 1 eq_refl).
  - exact (proj1 (edit_dialog int_of_str (Prompts.mkTyped "one" "" "3" "soon") a) eq_refl).
Defined.
